(** * Ranking service: heaps, aggregation and cache refresh

    A shallow embedding of [backend/src/api/apiManager.js] (the [MinHeap] and
    [MaxHeap] classes and the [apiService] object), of
    [backend/src/api/cacheManager.js] and of the Express handlers for
    [GET /users] and [GET /posts], followed by the properties of the ranking
    engine and of the refresh paths.

    Conventions of the embedding:
    - a JavaScript array is a [list]; an index is a JavaScript number, here a
      [Z], so that [getParentIndex 0 = -1] as in the source;
    - a method that mutates [this.heap] takes the array and returns the new one;
    - a computation that can throw returns an [outcome];
    - loops and recursive methods take a [fuel] bound; running out of fuel is an
      error of its own, and the callers pass a bound that is proved sufficient;
    - the collaborators (the upstream HTTP API behind axios, the clock) are given
      as data: an [Upstream] value describes what each request answers. *)

From Stdlib Require Import ZArith Lia.
From stdpp Require Import base list sorting strings.

Open Scope Z_scope.

Ltac Zify.zify_post_hook ::= Z.div_mod_to_equations.

(** ** Outcomes *)

Inductive error : Type :=
| OutOfBounds   (* an index outside the array was read or written *)
| TypeError     (* a property of [undefined] was read *)
| NetworkError  (* an upstream request (or the token exchange before it) failed *)
| OutOfFuel.    (* the bound of the embedding was reached *)

Inductive outcome (A : Type) : Type :=
| Ok (a : A)
| Throw (e : error).

Arguments Ok {A} a.
Arguments Throw {A} e.

#[global] Instance outcome_ret : MRet outcome := fun A a => Ok a.

#[global] Instance outcome_bind : MBind outcome := fun A B f m =>
match m with
| Ok a => f a
| Throw e => Throw e
end.

(** ** Arrays *)

Section Arrays.
Context {A : Type}.

(** [heap.length] *)
Definition size (heap : list A) : Z := Z.of_nat (length heap).

(** [heap[index]] followed by a property access: outside the array the read
    gives [undefined] and the access throws. *)
Definition elemAt (heap : list A) (index : Z) : outcome A :=
  if index <? 0 then Throw OutOfBounds
  else match heap !! Z.to_nat index with
       | Some x => Ok x
       | None => Throw OutOfBounds
       end.

(** [[heap[index1], heap[index2]] = [heap[index2], heap[index1]]]: the right
    side is read first, then [heap[index1]] and [heap[index2]] are written in
    that order. *)
Definition swap (heap : list A) (index1 index2 : Z) : outcome (list A) :=
  a ← elemAt heap index1;
  b ← elemAt heap index2;
  Ok (<[Z.to_nat index2 := a]> (<[Z.to_nat index1 := b]> heap)).

(** [heap.push(x)] *)
Definition push (heap : list A) (x : A) : list A := heap ++ [x].
End Arrays.

(** [Math.floor((index - 1) / 2)] *)
Definition getParentIndex (index : Z) : Z := (index - 1) / 2.

Definition getLeftChildIndex (index : Z) : Z := 2 * index + 1.

Definition getRightChildIndex (index : Z) : Z := 2 * index + 2.

(** ** Entities *)

Record User : Type := mkUser {
user_id : string;
user_name : string;
postCount : Z
}.

(** A post as the upstream returns it. *)
Record Post : Type := mkPost {
post_id : Z;
post_userid : string;
post_content : string
}.

(** [{...post, username: users[userId]}] *)
Record TaggedPost : Type := mkTagged {
tagged_post : Post;
username : option string
}.

(** [{...post, commentCount: comments.length}] *)
Record RankedPost : Type := mkRanked {
ranked_post : TaggedPost;
commentCount : Z
}.

Record Comment : Type := mkComment {
comment_id : Z;
comment_content : string
}.

Definition tagged_id (post : TaggedPost) : Z := post_id (tagged_post post).

Definition ranked_id (post : RankedPost) : Z := tagged_id (ranked_post post).

(** ** class MaxHeap *)

Module MaxHeap.
Section MaxHeap.
Context {A : Type} (keyFunction : A → Z).

Definition peek (heap : list A) : option A :=
  if 0 <? size heap then heap !! 0%nat else None.

Fixpoint heapifyUp_loop (fuel : nat) (heap : list A)
    (currentIndex parentIndex : Z) : outcome (list A) :=
  match fuel with
  | O => Throw OutOfFuel
  | S fuel =>
      if 0 <? currentIndex then
        parent ← elemAt heap parentIndex;
        current ← elemAt heap currentIndex;
        if keyFunction parent <? keyFunction current then
          heap ← swap heap currentIndex parentIndex;
          heapifyUp_loop fuel heap parentIndex (getParentIndex parentIndex)
        else Ok heap
      else Ok heap
  end.

Definition heapifyUp (heap : list A) (index : Z) : outcome (list A) :=
  heapifyUp_loop (S (Z.to_nat index)) heap index (getParentIndex index).

Definition insert (heap : list A) (item : A) : outcome (list A) :=
  let heap := push heap item in
  heapifyUp heap (size heap - 1).

Fixpoint heapifyDown (fuel : nat) (heap : list A) (index : Z)
    : outcome (list A) :=
  match fuel with
  | O => Throw OutOfFuel
  | S fuel =>
      let largest := index in
      let leftChildIndex := getLeftChildIndex index in
      let rightChildIndex := getRightChildIndex index in
      let size := size heap in
      largest ←
        (if leftChildIndex <? size then
           l ← elemAt heap leftChildIndex;
           c ← elemAt heap largest;
           Ok (if keyFunction l >? keyFunction c
               then leftChildIndex else largest)
         else Ok largest);
      largest ←
        (if rightChildIndex <? size then
           r ← elemAt heap rightChildIndex;
           c ← elemAt heap largest;
           Ok (if keyFunction r >? keyFunction c
               then rightChildIndex else largest)
         else Ok largest);
      if largest =? index then Ok heap
      else
        heap ← swap heap index largest;
        heapifyDown fuel heap largest
  end.

(** Returns the extracted item ([None] is JavaScript's [null]) and the array
    left in the heap. *)
Definition extractMax (heap : list A) : outcome (option A * list A) :=
  match heap with
  | [] => Ok (None, heap)
  | max :: _ =>
      let last := List.last heap max in
      let heap := removelast heap in
      if 0 <? size heap then
        let heap := <[0%nat := last]> heap in
        heap ← heapifyDown (length heap) heap 0;
        Ok (Some max, heap)
      else Ok (Some max, heap)
  end.
End MaxHeap.
End MaxHeap.

(** ** class MinHeap *)

Module MinHeap.

Fixpoint heapifyUp_loop (fuel : nat) (heap : list User)
    (currentIndex parentIndex : Z) : outcome (list User) :=
  match fuel with
  | O => Throw OutOfFuel
  | S fuel =>
      if 0 <? currentIndex then
        parent ← elemAt heap parentIndex;
        current ← elemAt heap currentIndex;
        if postCount parent >? postCount current then
          heap ← swap heap currentIndex parentIndex;
          heapifyUp_loop fuel heap parentIndex (getParentIndex parentIndex)
        else Ok heap
      else Ok heap
  end.

Definition heapifyUp (heap : list User) (index : Z) : outcome (list User) :=
  heapifyUp_loop (S (Z.to_nat index)) heap index (getParentIndex index).

Definition insert (heap : list User) (user : User) : outcome (list User) :=
  let heap := push heap user in
  heapifyUp heap (size heap - 1).

Fixpoint heapifyDown (fuel : nat) (heap : list User) (index : Z)
    : outcome (list User) :=
  match fuel with
  | O => Throw OutOfFuel
  | S fuel =>
      let smallest := index in
      let leftChildIndex := getLeftChildIndex index in
      let rightChildIndex := getRightChildIndex index in
      let size := size heap in
      smallest ←
        (if leftChildIndex <? size then
           l ← elemAt heap leftChildIndex;
           c ← elemAt heap smallest;
           Ok (if postCount l <? postCount c
               then leftChildIndex else smallest)
         else Ok smallest);
      smallest ←
        (if rightChildIndex <? size then
           r ← elemAt heap rightChildIndex;
           c ← elemAt heap smallest;
           Ok (if postCount r <? postCount c
               then rightChildIndex else smallest)
         else Ok smallest);
      if smallest =? index then Ok heap
      else
        heap ← swap heap index smallest;
        heapifyDown fuel heap smallest
  end.

Definition extractMin (heap : list User)
    : outcome (option User * list User) :=
  match heap with
  | [] => Ok (None, heap)
  | min :: _ =>
      let last := List.last heap min in
      let heap := removelast heap in
      if 0 <? size heap then
        let heap := <[0%nat := last]> heap in
        heap ← heapifyDown (length heap) heap 0;
        Ok (Some min, heap)
      else Ok (Some min, heap)
  end.
End MinHeap.

(** ** Collaborators *)

(** What [GET /users] of the upstream answers: the request fails, or the
    response carries no [users] field, or it carries the object whose entries
    (in enumeration order, keys distinct) are given. *)
Inductive UsersResponse : Type :=
| UsersFail
| UsersMissing
| UsersObject (entries : list (string * string)).

(** What [GET /posts/:id/comments] answers. *)
Inductive CommentsResponse : Type :=
| CommentsFail
| CommentsMissing
| CommentsList (comments : list Comment).

(** The upstream as seen through [axios] with the token of [getAuthToken]: a
    failed token exchange makes the request fail. [posts_of] is [None] when the
    request fails, and the array of [response.data.posts] otherwise. *)
Record Upstream : Type := mkUpstream {
  users_of : UsersResponse;
  posts_of : string → option (list Post);
  comments_of : Z → CommentsResponse
}.

(** ** Caches *)

Inductive CacheOp : Type :=
| CacheGet (cache key : string)
| CacheSet (cache key : string).

(** The entries of the [NodeCache] instances that the service uses. The three
    caches of [apiManager.js] have no TTL; those of [cacheManager.js] keep each
    value with its expiry instant in milliseconds ([0]: never). [clock] is
    [Date.now()], and [trace] records every cache access, latest last. *)
Record Store : Type := mkStore {
  userCache : option (list User);
  latestPostsCache : option (list TaggedPost);
  popularPostsCache : option (list RankedPost);
  usersCache : option (list User * Z);
  postsCache_latest : option (list TaggedPost * Z);
  postsCache_popular : option (list RankedPost * Z);
  clock : Z;
  trace : list CacheOp
}.

Record Config : Type := mkConfig {
  usersCacheTTL : Z;
  postsCacheTTL : Z
}.

Definition emptyStore (now : Z) : Store :=
  mkStore None None None None None None now [].

(** Computations over the caches that may throw. *)
Definition M (A : Type) : Type := Store → outcome A * Store.

#[global] Instance M_ret : MRet M := fun A a s => (Ok a, s).

#[global] Instance M_bind : MBind M := fun A B f m s =>
  match m s with
  | (Ok a, s') => f a s'
  | (Throw e, s') => (Throw e, s')
  end.

Definition lift {A : Type} (o : outcome A) : M A := fun s => (o, s).

(** [try { m } catch (error) { handler }] *)
Definition try_catch {A : Type} (m : M A) (handler : error → M A) : M A :=
  fun s =>
    match m s with
    | (Ok a, s') => (Ok a, s')
    | (Throw e, s') => handler e s'
    end.

Definition logged (op : CacheOp) (s : Store) : Store :=
  mkStore (userCache s) (latestPostsCache s) (popularPostsCache s)
    (usersCache s) (postsCache_latest s) (postsCache_popular s)
    (clock s) (trace s ++ [op]).

(** [NodeCache.get] on a cache with TTL: an expired entry reads as absent. *)
Definition ttl_get {V : Type} (now : Z) (entry : option (V * Z)) : option V :=
  match entry with
  | Some (v, t) => if (t =? 0) || (now <=? t) then Some v else None
  | None => None
  end.

(** [NodeCache.set] with the cache's [stdTTL], in seconds. *)
Definition ttl_set {V : Type} (now ttl : Z) (v : V) : option (V * Z) :=
  Some (v, if ttl =? 0 then 0 else now + ttl * 1000).

Definition userCache_get : M (option (list User)) := fun s =>
  (Ok (userCache s), logged (CacheGet "userCache" "topUsers") s).

Definition userCache_set (v : list User) : M unit := fun s =>
  (Ok tt,
   logged (CacheSet "userCache" "topUsers")
     (mkStore (Some v) (latestPostsCache s) (popularPostsCache s)
        (usersCache s) (postsCache_latest s) (postsCache_popular s)
        (clock s) (trace s))).

Definition latestPostsCache_get : M (option (list TaggedPost)) := fun s =>
  (Ok (latestPostsCache s), logged (CacheGet "latestPostsCache" "latestPosts") s).

Definition latestPostsCache_set (v : list TaggedPost) : M unit := fun s =>
  (Ok tt,
   logged (CacheSet "latestPostsCache" "latestPosts")
     (mkStore (userCache s) (Some v) (popularPostsCache s)
        (usersCache s) (postsCache_latest s) (postsCache_popular s)
        (clock s) (trace s))).

Definition popularPostsCache_get : M (option (list RankedPost)) := fun s =>
  (Ok (popularPostsCache s),
   logged (CacheGet "popularPostsCache" "popularPosts") s).

Definition popularPostsCache_set (v : list RankedPost) : M unit := fun s =>
  (Ok tt,
   logged (CacheSet "popularPostsCache" "popularPosts")
     (mkStore (userCache s) (latestPostsCache s) (Some v)
        (usersCache s) (postsCache_latest s) (postsCache_popular s)
        (clock s) (trace s))).

(** ** cacheService (cacheManager.js) *)

Module cacheService.

Definition getTopUsers : M (option (list User)) := fun s =>
  (Ok (ttl_get (clock s) (usersCache s)),
   logged (CacheGet "usersCache" "topUsers") s).

Definition setTopUsers (cfg : Config) (topUsers : list User) : M unit :=
  fun s =>
    (Ok tt,
     logged (CacheSet "usersCache" "topUsers")
       (mkStore (userCache s) (latestPostsCache s) (popularPostsCache s)
          (ttl_set (clock s) (usersCacheTTL cfg) topUsers)
          (postsCache_latest s) (postsCache_popular s)
          (clock s) (trace s))).

Definition getLatestPosts : M (option (list TaggedPost)) := fun s =>
  (Ok (ttl_get (clock s) (postsCache_latest s)),
   logged (CacheGet "postsCache" "latest_posts") s).

Definition setLatestPosts (cfg : Config) (posts : list TaggedPost) : M unit :=
  fun s =>
    (Ok tt,
     logged (CacheSet "postsCache" "latest_posts")
       (mkStore (userCache s) (latestPostsCache s) (popularPostsCache s)
          (usersCache s)
          (ttl_set (clock s) (postsCacheTTL cfg) posts) (postsCache_popular s)
          (clock s) (trace s))).

Definition getPopularPosts : M (option (list RankedPost)) := fun s =>
  (Ok (ttl_get (clock s) (postsCache_popular s)),
   logged (CacheGet "postsCache" "popular_posts") s).

Definition setPopularPosts (cfg : Config) (posts : list RankedPost) : M unit :=
  fun s =>
    (Ok tt,
     logged (CacheSet "postsCache" "popular_posts")
       (mkStore (userCache s) (latestPostsCache s) (popularPostsCache s)
          (usersCache s)
          (postsCache_latest s) (ttl_set (clock s) (postsCacheTTL cfg) posts)
          (clock s) (trace s))).

End cacheService.

(** ** Array.prototype.sort

    [array.sort(compare)] is a stable sort: [x] goes before the first [y] of the
    sorted rest for which [compare x y <= 0]. *)

Fixpoint sort_insert {A : Type} (compare : A → A → Z) (x : A) (l : list A)
    : list A :=
  match l with
  | [] => [x]
  | y :: l' =>
      if compare x y <=? 0 then x :: y :: l'
      else y :: sort_insert compare x l'
  end.

Fixpoint Array_sort {A : Type} (compare : A → A → Z) (l : list A) : list A :=
  match l with
  | [] => []
  | x :: l' => sort_insert compare x (Array_sort compare l')
  end.

(** [users[userId]] on the object with the given entries *)
Fixpoint prop_get (entries : list (string * string)) (key : string)
    : option string :=
  match entries with
  | [] => None
  | (k, v) :: entries' =>
      if String.eqb k key then Some v else prop_get entries' key
  end.

(** A left fold whose step may throw: [for (const x of l) { ... }] over a
    mutable accumulator. *)
Fixpoint for_of {A B : Type} (l : list A) (step : B → A → outcome B) (acc : B)
    : outcome B :=
  match l with
  | [] => Ok acc
  | x :: l' => acc ← step acc x; for_of l' step acc
  end.

(** ** apiService (apiManager.js) *)

Module apiService.

Definition fetchUsers (up : Upstream)
    : outcome (option (list (string * string))) :=
  match users_of up with
  | UsersFail => Throw NetworkError
  | UsersMissing => Ok None
  | UsersObject entries => Ok (Some entries)
  end.

Definition fetchUserPosts (up : Upstream) (userId : string) : list Post :=
  match posts_of up userId with
  | Some posts => posts
  | None => []
  end.

(** [None] is [undefined]: the response carried no [comments] field. *)
Definition fetchPostComments (up : Upstream) (postId : Z)
    : option (list Comment) :=
  match comments_of up postId with
  | CommentsFail => Some []
  | CommentsMissing => None
  | CommentsList comments => Some comments
  end.

(** [Object.entries(users)] throws on [undefined]. *)
Definition Object_entries (users : option (list (string * string)))
    : outcome (list (string * string)) :=
  match users with
  | Some entries => Ok entries
  | None => Throw TypeError
  end.

(** The loop of [getTopUsers] that builds [userWithPosts]. *)
Definition userWithPosts (up : Upstream) (entries : list (string * string))
    : list User :=
  map (fun '(id, name) => mkUser id name (size (fetchUserPosts up id))) entries.

(** [userWithPosts.forEach(user => { heap.insert(user);
    if (heap.size() > 5) heap.extractMin(); })] *)
Definition keepFive (heap : list User) (user : User) : outcome (list User) :=
  heap ← MinHeap.insert heap user;
  if size heap >? 5 then
    '(_, heap) ← MinHeap.extractMin heap;
    Ok heap
  else Ok heap.

(** [while (heap.size() > 0) topUsers.unshift(heap.extractMin())]. The arrays
    of the embedding hold no [null]; [extractMin] gives [null] only on an empty
    heap, which the loop test excludes. *)
Fixpoint drain (fuel : nat) (heap topUsers : list User)
    : outcome (list User) :=
  match fuel with
  | O => Throw OutOfFuel
  | S fuel =>
      if size heap >? 0 then
        '(min, heap) ← MinHeap.extractMin heap;
        match min with
        | Some user => drain fuel heap (user :: topUsers)
        | None => Throw TypeError
        end
      else Ok topUsers
  end.

(** Lines 123-137 of [getTopUsers], repeated in [updateUsersCache]: the five
    users with the most posts, by a min-heap of at most six entries. *)
Definition topUsersOf (userWithPosts : list User) : outcome (list User) :=
  heap ← for_of userWithPosts keepFive [];
  drain (S (length heap)) heap [].

Definition getTopUsers (up : Upstream) : M (list User) :=
  cachedUsers ← userCache_get;
  match cachedUsers with
  | Some cachedUsers => mret cachedUsers
  | None =>
      users ← lift (fetchUsers up);
      entries ← lift (Object_entries users);
      topUsers ← lift (topUsersOf (userWithPosts up entries));
      userCache_set topUsers;;
      mret topUsers
  end.

(** [{...post, username: users[userId]}] for the posts of one user *)
Definition tagPosts (up : Upstream) (users : list (string * string))
    (userId : string) : list TaggedPost :=
  map (fun post => mkTagged post (prop_get users userId))
    (fetchUserPosts up userId).

(** Nothing inside the [try] block throws once [fetchUsers] has answered. *)
Definition fetchAllPosts (up : Upstream) : list TaggedPost :=
  match fetchUsers up with
  | Throw _ => []
  | Ok None => []
  | Ok (Some users) =>
      foldl (fun allPosts userId => allPosts ++ tagPosts up users userId)
        [] (map fst users)
  end.

(** [for (let i = 0; i < count; i++) out.push(heap.extractMax())]. As in
    [drain], the [null] of an empty heap has no place in the arrays of the
    embedding; [count] is at most the size of the heap. *)
Fixpoint extractMany {A : Type} (keyFunction : A → Z) (count : nat)
    (heap out : list A) : outcome (list A) :=
  match count with
  | O => Ok out
  | S count =>
      '(max, heap) ← MaxHeap.extractMax keyFunction heap;
      match max with
      | Some item => extractMany keyFunction count heap (out ++ [item])
      | None => Throw TypeError
      end
  end.

(** Lines 187-200 of [getLatestPosts], repeated in [updatePostsCache]. *)
Definition latestOf (allPosts : list TaggedPost) : outcome (list TaggedPost) :=
  maxHeap ← for_of allPosts (MaxHeap.insert tagged_id) [];
  let extractCount := Z.min 5 (size maxHeap) in
  extractMany tagged_id (Z.to_nat extractCount) maxHeap [].

Definition getLatestPosts (up : Upstream) : M (list TaggedPost) :=
  cachedPosts ← latestPostsCache_get;
  match cachedPosts with
  | Some cachedPosts => mret cachedPosts
  | None =>
      try_catch
        (let allPosts := fetchAllPosts up in
         latestPosts ← lift (latestOf allPosts);
         latestPostsCache_set latestPosts;;
         mret latestPosts)
        (fun _ => mret [])
  end.

(** [while (commentHeap.size() > 0 &&
            commentHeap.peek().commentCount === maxComments)
      out.push(commentHeap.extractMax())]. Reading [commentCount] of the
    [null] that [peek] gives on an empty heap would throw. *)
Fixpoint extractTied (fuel : nat) (maxComments : Z)
    (commentHeap out : list RankedPost) : outcome (list RankedPost) :=
  match fuel with
  | O => Throw OutOfFuel
  | S fuel =>
      if size commentHeap >? 0 then
        match MaxHeap.peek commentHeap with
        | None => Throw TypeError
        | Some top =>
            if commentCount top =? maxComments then
              '(max, commentHeap) ← MaxHeap.extractMax commentCount commentHeap;
              match max with
              | Some item =>
                  extractTied fuel maxComments commentHeap (out ++ [item])
              | None => Throw TypeError
              end
            else Ok out
        end
      else Ok out
  end.

(** [(a, b) => b.id - a.id] *)
Definition newestFirst (a b : RankedPost) : Z := ranked_id b - ranked_id a.

(** Lines 241-252 of [getPopularPosts], on a heap that is not empty. *)
Definition mostCommented (commentHeap : list RankedPost)
    : outcome (list RankedPost) :=
  match MaxHeap.peek commentHeap with
  | None => Throw TypeError
  | Some topPost =>
      let maxComments := commentCount topPost in
      mostCommentedPosts ←
        extractTied (S (length commentHeap)) maxComments commentHeap [];
      Ok (Array_sort newestFirst mostCommentedPosts)
  end.

Definition getPopularPosts (up : Upstream) : M (list RankedPost) :=
  cachedPosts ← popularPostsCache_get;
  match cachedPosts with
  | Some cachedPosts => mret cachedPosts
  | None =>
      try_catch
        (let allPosts := fetchAllPosts up in
         commentHeap ← lift (for_of allPosts
           (fun commentHeap post =>
              match fetchPostComments up (tagged_id post) with
              | None => Throw TypeError
              | Some comments =>
                  MaxHeap.insert commentCount commentHeap
                    (mkRanked post (size comments))
              end) []);
         if size commentHeap =? 0 then mret []
         else
           result ← lift (mostCommented commentHeap);
           popularPostsCache_set result;;
           mret result)
        (fun _ => mret [])
  end.

Definition updatePostsCache (up : Upstream) : M unit :=
  try_catch
    (let allPosts := fetchAllPosts up in
     if size allPosts =? 0 then
       latestPostsCache_set [];;
       popularPostsCache_set [];;
       mret tt
     else
       latestPosts ← lift (latestOf allPosts);
       latestPostsCache_set latestPosts;;
       commentHeap ← lift (for_of allPosts
         (fun commentHeap post =>
            let comments :=
              match fetchPostComments up (tagged_id post) with
              | None => []
              | Some comments => comments
              end in
            MaxHeap.insert commentCount commentHeap
              (mkRanked post (size comments))) []);
       if size commentHeap >? 0 then
         popularPosts ← lift (mostCommented commentHeap);
         popularPostsCache_set popularPosts;;
         mret tt
       else mret tt)
    (fun _ => mret tt).

Definition updateUsersCache (up : Upstream) : M unit :=
  try_catch
    (users ← lift (fetchUsers up);
     match users with
     | None => userCache_set [];; mret tt
     | Some entries =>
         let userWithPosts := userWithPosts up entries in
         if size userWithPosts =? 0 then userCache_set [];; mret tt
         else
           topUsers ← lift (topUsersOf userWithPosts);
           userCache_set topUsers;;
           mret tt
     end)
    (fun _ => userCache_set [];; mret tt).

End apiService.

(** ** Express handlers *)

Inductive Body : Type :=
| JsonUsers (users : list User)
| JsonLatest (posts : list TaggedPost)
| JsonPopular (posts : list RankedPost)
| JsonError (message : string).

Record Response : Type := mkResponse {
  status : Z;
  body : Body
}.

(** A value of [req.query]: a string, or an array or an object when the key is
    repeated or bracketed. *)
Inductive QueryValue : Type :=
| QString (s : string)
| QArray (values : list string)
| QObject (fields : list (string * string)).

(** JavaScript truthiness: of these values only the empty string is falsy. *)
Definition truthy (v : QueryValue) : bool :=
  match v with
  | QString s => negb (String.eqb s "")
  | QArray _ => true
  | QObject _ => true
  end.

(** [v === s] for a string literal [s] *)
Definition strict_eq (v : QueryValue) (s : string) : bool :=
  match v with
  | QString s' => String.eqb s' s
  | _ => false
  end.

(** The double quote character of the 400 message. *)
Definition dquote : string := String (Ascii.ascii_of_nat 34) EmptyString.

Module app.

(** [res.json(x)] *)
Definition json (b : Body) : Response := mkResponse 200 b.

(** [try { m } catch (error) { res.status(500).json(...) }] *)
Definition guarded (m : M Response) : Store → Response * Store := fun s =>
  match m s with
  | (Ok r, s') => (r, s')
  | (Throw _, s') => (mkResponse 500 (JsonError "Internal Server Error"), s')
  end.

(** [app.get('/users', ...)] *)
Definition get_users (cfg : Config) (up : Upstream)
    : Store → Response * Store :=
  guarded
    (cachedUsers ← cacheService.getTopUsers;
     match cachedUsers with
     | Some cachedUsers => mret (json (JsonUsers cachedUsers))
     | None =>
         topUsers ← apiService.getTopUsers up;
         cacheService.setTopUsers cfg topUsers;;
         mret (json (JsonUsers topUsers))
     end).

(** [app.get('/posts', ...)]; [query_type] is [req.query.type], [None] when the
    parameter is absent. *)
Definition get_posts (cfg : Config) (up : Upstream)
    (query_type : option QueryValue) : Store → Response * Store :=
  let type :=
    match query_type with
    | Some v => if truthy v then v else QString "latest"
    | None => QString "latest"
    end in
  guarded
    (if strict_eq type "latest" then
       cachedLatestPosts ← cacheService.getLatestPosts;
       match cachedLatestPosts with
       | Some cachedLatestPosts => mret (json (JsonLatest cachedLatestPosts))
       | None =>
           latestPosts ← apiService.getLatestPosts up;
           cacheService.setLatestPosts cfg latestPosts;;
           mret (json (JsonLatest latestPosts))
       end
     else if strict_eq type "popular" then
       cachedPopularPosts ← cacheService.getPopularPosts;
       match cachedPopularPosts with
       | Some cachedPopularPosts =>
           mret (json (JsonPopular cachedPopularPosts))
       | None =>
           popularPosts ← apiService.getPopularPosts up;
           cacheService.setPopularPosts cfg popularPosts;;
           mret (json (JsonPopular popularPosts))
       end
     else
       mret (mkResponse 400
         (JsonError
            ("Invalid type parameter. Use " +:+ dquote +:+ "latest" +:+ dquote
             +:+ " or " +:+ dquote +:+ "popular" +:+ dquote +:+ ".")))).

End app.

(** ** Vocabulary of the properties *)

Section HeapOrder.
Context {A : Type} (key : A → Z).

(** The element at a JavaScript index, [None] outside the array. *)
Definition zget (heap : list A) (index : Z) : option A :=
  if decide (0 ≤ index) then heap !! Z.to_nat index else None.

(** The item at [child] does not outrank the item at [parent]. *)
Definition ordered (heap : list A) (parent child : Z) : Prop :=
  ∀ x y, zget heap parent = Some x → zget heap child = Some y → key y ≤ key x.

(** Max-heap order on the key: every item is below its parent. *)
Definition heap_ok (heap : list A) : Prop :=
  ∀ c, 0 < c → ordered heap (getParentIndex c) c.

(** Heap order everywhere except between [hole] and its parent; the children
    of [hole] are below its parent. The loop invariant of [heapifyUp]. *)
Definition up_inv (heap : list A) (hole : Z) : Prop :=
  (∀ c, 0 < c → c ≠ hole → ordered heap (getParentIndex c) c) ∧
  (∀ c, 0 < hole → getParentIndex c = hole →
        ordered heap (getParentIndex hole) c).

(** Heap order everywhere except between [hole] and its children; the
    children of [hole] are below its parent. The invariant of [heapifyDown]. *)
Definition down_inv (heap : list A) (hole : Z) : Prop :=
  (∀ c, 0 < c → getParentIndex c ≠ hole → ordered heap (getParentIndex c) c) ∧
  (∀ c, 0 < hole → getParentIndex c = hole →
        ordered heap (getParentIndex hole) c).

(** The two conditionals at the head of [MaxHeap.heapifyDown]: the index of
    the largest key among [index] and its children. *)
Definition pick_largest (heap : list A) (index : Z) : outcome Z :=
  largest ←
    (if getLeftChildIndex index <? size heap then
       l ← elemAt heap (getLeftChildIndex index);
       c ← elemAt heap index;
       Ok (if key l >? key c then getLeftChildIndex index else index)
     else Ok index);
  if getRightChildIndex index <? size heap then
    r ← elemAt heap (getRightChildIndex index);
    c ← elemAt heap largest;
    Ok (if key r >? key c then getRightChildIndex index else largest)
  else Ok largest.
End HeapOrder.

(** [MinHeap] orders users as a max-heap on the negated post count. *)
Definition negCount (user : User) : Z := - postCount user.

(** Descending order of scores. *)
Definition desc (a b : Z) : Prop := b ≤ a.

#[global] Instance desc_dec a b : Decision (desc a b).
Proof. unfold desc. apply _. Defined.

(** Descending order of the key [f]. *)
Definition descBy {A : Type} (f : A → Z) (x y : A) : Prop := f y ≤ f x.

(** The [k] largest scores by a full sort, largest first. *)
Definition bruteForceTop (k : nat) (scores : list Z) : list Z :=
  take k (merge_sort desc scores).

(** [kept] are [k] items of [all] of largest key (all of them when [all] has
    fewer than [k]); [rest] are the others. *)
Definition top_split {A : Type} (f : A → Z) (k : nat)
    (all kept rest : list A) : Prop :=
  all ≡ₚ kept ++ rest ∧
  (∀ t r, t ∈ kept → r ∈ rest → f r ≤ f t) ∧
  length kept = Nat.min k (length all).

(** ** The service as a state machine *)

(** What can happen to the store: time passes, a request is served, or a
    scheduled refresh runs; each against the upstream of that moment. *)
Inductive Event : Type :=
| Tick (now : Z)
| GetUsers (up : Upstream)
| GetPosts (up : Upstream) (query_type : option QueryValue)
| RefreshPosts (up : Upstream)
| RefreshUsers (up : Upstream).

Definition set_clock (now : Z) (s : Store) : Store :=
  mkStore (userCache s) (latestPostsCache s) (popularPostsCache s)
    (usersCache s) (postsCache_latest s) (postsCache_popular s)
    now (trace s).

Definition run (cfg : Config) (e : Event) (s : Store) : Store :=
  match e with
  | Tick now => set_clock now s
  | GetUsers up => snd (app.get_users cfg up s)
  | GetPosts up query_type => snd (app.get_posts cfg up query_type s)
  | RefreshPosts up => snd (apiService.updatePostsCache up s)
  | RefreshUsers up => snd (apiService.updateUsersCache up s)
  end.

Inductive reachable (cfg : Config) : Store → Prop :=
| reachable_init now : reachable cfg (emptyStore now)
| reachable_step e s : reachable cfg s → reachable cfg (run cfg e s).

(** At most five users, in descending order of post count. *)
Definition ranked_users (users : list User) : Prop :=
  (length users ≤ 5)%nat ∧ StronglySorted (descBy postCount) users.

(** Every cached view of the top users is ranked. *)
Definition user_views_ranked (s : Store) : Prop :=
  (∀ l, userCache s = Some l → ranked_users l) ∧
  (∀ l t, usersCache s = Some (l, t) → ranked_users l).

(** No cache holds a view with an entry in it. *)
Definition no_views (s : Store) : Prop :=
  (∀ l, userCache s = Some l → l = []) ∧
  (∀ l, latestPostsCache s = Some l → l = []) ∧
  (∀ l, popularPostsCache s = Some l → l = []) ∧
  (∀ l t, usersCache s = Some (l, t) → l = []) ∧
  (∀ l t, postsCache_latest s = Some (l, t) → l = []) ∧
  (∀ l t, postsCache_popular s = Some (l, t) → l = []).

(** The posts of the users whose request succeeded, in listing order. *)
Definition postsOfReachable (up : Upstream) (users : list (string * string))
    : list TaggedPost :=
  concat (map (apiService.tagPosts up users)
            (filter (λ userId, is_Some (posts_of up userId)) (map fst users))).

(** [s'] holds the same views of the top users as [s]. *)
Definition same_user_views (s s' : Store) : Prop :=
  userCache s' = userCache s ∧ usersCache s' = usersCache s.

(** ** Sample data *)

Definition samplePost (id : Z) (owner : string) : Post := mkPost id owner "".

Definition sampleComments (n : nat) : list Comment :=
  map (λ i, mkComment (Z.of_nat i) "") (seq 0 n).

(** An upstream whose user listing fails. *)
Definition downUpstream : Upstream :=
  mkUpstream UsersFail (λ _, None) (λ _, CommentsFail).

(** An upstream with no user. *)
Definition emptyUpstream : Upstream :=
  mkUpstream (UsersObject []) (λ _, None) (λ _, CommentsFail).

(** Four users; the request for the posts of [u3] fails. *)
Definition partialUpstream : Upstream :=
  mkUpstream
    (UsersObject [("u1", "Ann"); ("u2", "Bob"); ("u3", "Cid"); ("u4", "Dee")])
    (λ userId,
       if String.eqb userId "u1" then Some [samplePost 1 "u1"; samplePost 2 "u1"]
       else if String.eqb userId "u2" then Some [samplePost 3 "u2"]
       else if String.eqb userId "u4" then Some [samplePost 4 "u4"]
       else None)
    (λ _, CommentsList []).

(** One user with the posts 1 to 5, which have 3, 5, 5, 2 and 5 comments. *)
Definition tiedUpstream : Upstream :=
  mkUpstream (UsersObject [("u1", "Ann")])
    (λ userId,
       if String.eqb userId "u1"
       then Some (map (λ id, samplePost id "u1") [1; 2; 3; 4; 5])
       else None)
    (λ postId,
       CommentsList (sampleComments
         (if postId =? 1 then 3 else if postId =? 2 then 5
          else if postId =? 3 then 5 else if postId =? 4 then 2
          else if postId =? 5 then 5 else 0))).

(** Two users with the posts 3, 8, 1, 6 and 2, 7, 5, 4. *)
Definition eightUpstream : Upstream :=
  mkUpstream (UsersObject [("u1", "Ann"); ("u2", "Bob")])
    (λ userId,
       if String.eqb userId "u1"
       then Some (map (λ id, samplePost id "u1") [3; 8; 1; 6])
       else if String.eqb userId "u2"
       then Some (map (λ id, samplePost id "u2") [2; 7; 5; 4])
       else None)
    (λ _, CommentsList []).

(** A store whose caches of [apiManager.js] hold views of an earlier cycle. *)
Definition warmStore : Store :=
  mkStore (Some [mkUser "u1" "Ann" 2])
    (Some [mkTagged (samplePost 1 "u1") (Some "Ann")])
    (Some [mkRanked (mkTagged (samplePost 1 "u1") (Some "Ann")) 1])
    None None None 0 [].

Definition sampleConfig : Config := mkConfig 300 120.

(** [{...post, commentCount: comments.length}] with the comments that
    [fetchPostComments] returns for the post (none when the field is
    missing). *)
Definition rankPost (up : Upstream) (post : TaggedPost) : RankedPost :=
  mkRanked post
    (size (default [] (apiService.fetchPostComments up (tagged_id post)))).

(** ** Startup checks (apiManager.js) *)

Definition requiredEnvVars : list string :=
  ["ACCESS_CODE"; "CLIENT_ID"; "CLIENT_SECRET"; "OWNER_NAME"; "OWNER_EMAIL";
   "ROLL_NO"].

(** [!process.env[envVar]]: the variable is unset or empty. *)
Definition env_missing (env : string → option string) (envVar : string)
    : bool :=
  match env envVar with
  | Some value => String.eqb value ""
  | None => true
  end.

(** [for (const envVar of vars) if (!process.env[envVar]) { ...;
    process.exit(1) }]: the variable named in the error message when the
    process exits with code 1, or [None] when the module goes on loading. *)
Fixpoint validateEnv (env : string → option string) (vars : list string)
    : option string :=
  match vars with
  | [] => None
  | envVar :: vars =>
      if env_missing env envVar then Some envVar else validateEnv env vars
  end.

(** ** More vocabulary *)

(** Min-heap order on the post count: no user has fewer posts than its
    parent. *)
Definition min_heap_ok (heap : list User) : Prop :=
  ∀ c x y, 0 < c →
    zget heap (getParentIndex c) = Some x → zget heap c = Some y →
    postCount x ≤ postCount y.

(** At most five posts, in descending order of identifier. *)
Definition ranked_latest (posts : list TaggedPost) : Prop :=
  (length posts ≤ 5)%nat ∧ StronglySorted (descBy tagged_id) posts.

(** Posts with one and the same comment count, in descending order of
    identifier. *)
Definition tied_popular (posts : list RankedPost) : Prop :=
  (∀ x y, x ∈ posts → y ∈ posts → commentCount x = commentCount y) ∧
  StronglySorted (descBy ranked_id) posts.

(** Every cached view of the posts is well formed. *)
Definition post_views_ranked (s : Store) : Prop :=
  (∀ l, latestPostsCache s = Some l → ranked_latest l) ∧
  (∀ l t, postsCache_latest s = Some (l, t) → ranked_latest l) ∧
  (∀ l, popularPostsCache s = Some l → tied_popular l) ∧
  (∀ l t, postsCache_popular s = Some (l, t) → tied_popular l).

(** [s'] holds the same cache entries as [s]. *)
Definition same_caches (s s' : Store) : Prop :=
  userCache s' = userCache s ∧
  latestPostsCache s' = latestPostsCache s ∧
  popularPostsCache s' = popularPostsCache s ∧
  usersCache s' = usersCache s ∧
  postsCache_latest s' = postsCache_latest s ∧
  postsCache_popular s' = postsCache_popular s.

(** [req.query.type] names neither view: it is present, truthy, and not one
    of the two strings. *)
Definition invalid_type (query_type : option QueryValue) : Prop :=
  ∃ v, query_type = Some v ∧ truthy v = true ∧
       strict_eq v "latest" = false ∧ strict_eq v "popular" = false.

(** [{...post, username: name}] for the posts fetched for one listing
    entry. *)
Definition taggedFor (up : Upstream) (entry : string * string)
    : list TaggedPost :=
  map (λ post, mkTagged post (Some (snd entry)))
    (apiService.fetchUserPosts up (fst entry)).

(** Six users with one post each; the request for the posts of [u3]
    fails. *)
Definition sixUpstream : Upstream :=
  mkUpstream
    (UsersObject [("u1", "Ann"); ("u2", "Bob"); ("u3", "Cid"); ("u4", "Dee");
                  ("u5", "Eve"); ("u6", "Fay")])
    (λ userId,
       if String.eqb userId "u1" then Some [samplePost 1 "u1"]
       else if String.eqb userId "u2" then Some [samplePost 2 "u2"]
       else if String.eqb userId "u4" then Some [samplePost 4 "u4"]
       else if String.eqb userId "u5" then Some [samplePost 5 "u5"]
       else if String.eqb userId "u6" then Some [samplePost 6 "u6"]
       else None)
    (λ _, CommentsList []).

(** An upstream with one user and one post whose comments response lacks the
    [comments] field. *)
Definition noCommentsUpstream : Upstream :=
  mkUpstream (UsersObject [("u1", "Ann")])
    (λ userId,
       if String.eqb userId "u1" then Some [samplePost 1 "u1"] else None)
    (λ _, CommentsMissing).

(** The answer of [GET /users] is pinned to [users]: a live entry of
    [usersCache] holds it, or that entry is absent or expired and [userCache]
    holds it. *)
Definition users_pinned (s : Store) (users : list User) : Prop :=
  match ttl_get (clock s) (usersCache s) with
  | Some cached => cached = users
  | None => userCache s = Some users
  end.

Definition latest_pinned (s : Store) (posts : list TaggedPost) : Prop :=
  match ttl_get (clock s) (postsCache_latest s) with
  | Some cached => cached = posts
  | None => latestPostsCache s = Some posts
  end.

Definition popular_pinned (s : Store) (posts : list RankedPost) : Prop :=
  match ttl_get (clock s) (postsCache_popular s) with
  | Some cached => cached = posts
  | None => popularPostsCache s = Some posts
  end.

(** [s'] holds the same views of the posts as [s]. *)
Definition same_post_views (s s' : Store) : Prop :=
  latestPostsCache s' = latestPostsCache s ∧
  popularPostsCache s' = popularPostsCache s ∧
  postsCache_latest s' = postsCache_latest s ∧
  postsCache_popular s' = postsCache_popular s.

(** * Facts about arrays *)

Section ArrayFacts.
Context {A : Type}.
Implicit Types (heap h : list A) (i j n : Z).

Lemma zget_Some_bounds h i x : zget h i = Some x → 0 ≤ i < size h.
Proof.
  unfold zget, size. destruct (decide (0 ≤ i)); [|done].
  intros H%lookup_lt_Some. lia.
Qed.

Lemma zget_in_range h i : 0 ≤ i < size h → ∃ x, zget h i = Some x.
Proof.
  unfold zget, size. intros Hi. destruct (decide (0 ≤ i)); [|lia].
  destruct (lookup_lt_is_Some_2 h (Z.to_nat i)) as [x Hx]; [lia|]. eauto.
Qed.

Lemma zget_elem_of h i x : zget h i = Some x → x ∈ h.
Proof.
  unfold zget. destruct (decide (0 ≤ i)); [|done].
  apply list_elem_of_lookup_2.
Qed.

Lemma elem_of_zget h x : x ∈ h → ∃ i, zget h i = Some x.
Proof.
  intros [n Hn]%list_elem_of_lookup_1. exists (Z.of_nat n).
  unfold zget. destruct (decide (0 ≤ Z.of_nat n)); [|lia].
  by rewrite Nat2Z.id.
Qed.

Lemma elemAt_zget h i : elemAt h i =
  match zget h i with Some x => Ok x | None => Throw OutOfBounds end.
Proof.
  unfold elemAt, zget. destruct (Z.ltb_spec i 0), (decide (0 ≤ i)); try lia; done.
Qed.

Lemma elemAt_Ok h i x : zget h i = Some x → elemAt h i = Ok x.
Proof. rewrite elemAt_zget. by intros ->. Qed.

Lemma swap_Ok h i j a b :
  zget h i = Some a → zget h j = Some b →
  swap h i j = Ok (<[Z.to_nat j := a]> (<[Z.to_nat i := b]> h)).
Proof.
  intros Hi Hj. unfold swap. by rewrite (elemAt_Ok _ _ _ Hi), (elemAt_Ok _ _ _ Hj).
Qed.

Lemma zget_swapped h i j a b n :
  zget h i = Some a → zget h j = Some b →
  zget (<[Z.to_nat j := a]> (<[Z.to_nat i := b]> h)) n =
    if decide (n = j) then Some a
    else if decide (n = i) then Some b else zget h n.
Proof.
  intros Hi Hj.
  pose proof (zget_Some_bounds _ _ _ Hi). pose proof (zget_Some_bounds _ _ _ Hj).
  unfold zget, size in *. destruct (decide (0 ≤ n)).
  - destruct (decide (n = j)) as [->|].
    + rewrite list_lookup_insert_eq; [done|]. rewrite length_insert. lia.
    + rewrite list_lookup_insert_ne by lia.
      destruct (decide (n = i)) as [->|].
      * rewrite list_lookup_insert_eq; [done|lia].
      * by rewrite list_lookup_insert_ne by lia.
  - destruct (decide (n = j)); [lia|]. destruct (decide (n = i)); [lia|done].
Qed.

Lemma swapped_Permutation h i j a b :
  zget h i = Some a → zget h j = Some b →
  <[Z.to_nat j := a]> (<[Z.to_nat i := b]> h) ≡ₚ h.
Proof.
  unfold zget. destruct (decide (0 ≤ i)), (decide (0 ≤ j)); try done.
  intros. by apply Permutation_insert_swap.
Qed.

Lemma size_Permutation (h h' : list A) : h ≡ₚ h' → size h = size h'.
Proof. unfold size. by intros ->. Qed.

Lemma zget_app_l h x i : i < size h → zget (h ++ [x]) i = zget h i.
Proof.
  unfold zget, size. intros. destruct (decide (0 ≤ i)); [|done].
  rewrite lookup_app_l; [done|lia].
Qed.
End ArrayFacts.

(** * Heap order is restored by the sift operations *)

Section MaxHeapFacts.
Context {A : Type} (key : A → Z).
Implicit Types (heap h : list A) (i j n : Z).

Lemma heapifyDown_unfold fuel h i :
  MaxHeap.heapifyDown key (S fuel) h i =
    (largest ← pick_largest key h i;
     if largest =? i then Ok h
     else h' ← swap h i largest; MaxHeap.heapifyDown key fuel h' largest).
Proof.
  unfold pick_largest. cbn [MaxHeap.heapifyDown].
  destruct (getLeftChildIndex i <? size h); cbn.
  - destruct (elemAt h (getLeftChildIndex i)); cbn; [|done].
    destruct (elemAt h i); cbn; done.
  - done.
Qed.

Lemma pick_largest_spec h i :
  0 ≤ i < size h →
  ∃ lg m x,
    pick_largest key h i = Ok lg ∧ zget h i = Some x ∧ zget h lg = Some m ∧
    (lg = i ∨ (lg = getLeftChildIndex i ∨ lg = getRightChildIndex i) ∧
              key x < key m) ∧
    key x ≤ key m ∧
    (∀ y, zget h (getLeftChildIndex i) = Some y → key y ≤ key m) ∧
    (∀ y, zget h (getRightChildIndex i) = Some y → key y ≤ key m).
Proof.
  intros Hi. destruct (zget_in_range h i Hi) as [x Hx].
  unfold pick_largest, getLeftChildIndex, getRightChildIndex.
  assert (Hnone : ∀ j y, ¬ j < size h → zget h j = Some y → False).
  { intros j y Hj Hy%zget_Some_bounds. lia. }
  destruct (Z.ltb_spec (2 * i + 1) (size h)) as [Hl|Hl];
    destruct (Z.ltb_spec (2 * i + 2) (size h)) as [Hr|Hr]; try lia.
  - destruct (zget_in_range h (2 * i + 1)) as [l Hl']; [lia|].
    destruct (zget_in_range h (2 * i + 2)) as [r Hr']; [lia|].
    rewrite (elemAt_Ok _ _ _ Hl'), (elemAt_Ok _ _ _ Hx). cbn.
    rewrite (elemAt_Ok _ _ _ Hr'). cbn.
    rewrite !Z.gtb_ltb.
    destruct (Z.ltb_spec (key x) (key l)).
    + rewrite (elemAt_Ok _ _ _ Hl'). cbn. rewrite Z.gtb_ltb.
      destruct (Z.ltb_spec (key l) (key r)).
      * exists (2 * i + 2), r, x. repeat split; auto; try lia;
          intros y Hy; simplify_eq; lia.
      * exists (2 * i + 1), l, x. repeat split; auto; try lia;
          intros y Hy; simplify_eq; lia.
    + rewrite (elemAt_Ok _ _ _ Hx). cbn. rewrite Z.gtb_ltb.
      destruct (Z.ltb_spec (key x) (key r)).
      * exists (2 * i + 2), r, x. repeat split; auto; try lia;
          intros y Hy; simplify_eq; lia.
      * exists i, x, x. repeat split; auto; try lia;
          intros y Hy; simplify_eq; lia.
  - destruct (zget_in_range h (2 * i + 1)) as [l Hl']; [lia|].
    rewrite (elemAt_Ok _ _ _ Hl'), (elemAt_Ok _ _ _ Hx). cbn.
    rewrite Z.gtb_ltb.
    destruct (Z.ltb_spec (key x) (key l)).
    + exists (2 * i + 1), l, x. repeat split; auto; try lia;
        intros y Hy; simplify_eq; try lia. exfalso. eapply Hnone; [|done]. lia.
    + exists i, x, x. repeat split; auto; try lia;
        intros y Hy; simplify_eq; try lia. exfalso. eapply Hnone; [|done]. lia.
  - cbn. exists i, x, x. repeat split; auto; try lia;
      intros y Hy; exfalso; (eapply Hnone; [|done]); lia.
Qed.


Lemma down_inv_done h i x :
  zget h i = Some x →
  (∀ y, zget h (getLeftChildIndex i) = Some y → key y ≤ key x) →
  (∀ y, zget h (getRightChildIndex i) = Some y → key y ≤ key x) →
  down_inv key h i → heap_ok key h.
Proof.
  intros Hx Hl Hr [H1 H2] c Hc.
  destruct (decide (getParentIndex c = i)) as [Hp|Hp]; [|by apply H1].
  intros a b Ha Hb. rewrite Hp in Ha. simplify_eq.
  unfold getParentIndex, getLeftChildIndex, getRightChildIndex in *.
  assert (c = 2 * ((c - 1) / 2) + 1 ∨ c = 2 * ((c - 1) / 2) + 2) as [Hc'|Hc']
    by lia.
  - apply Hl. by rewrite <- Hc'.
  - apply Hr. by rewrite <- Hc'.
Qed.

Lemma down_inv_swapped h i lg x m :
  zget h i = Some x → zget h lg = Some m →
  lg = getLeftChildIndex i ∨ lg = getRightChildIndex i →
  key x < key m →
  (∀ y, zget h (getLeftChildIndex i) = Some y → key y ≤ key m) →
  (∀ y, zget h (getRightChildIndex i) = Some y → key y ≤ key m) →
  down_inv key h i →
  down_inv key (<[Z.to_nat lg := x]> (<[Z.to_nat i := m]> h)) lg.
Proof.
  intros Hx Hm Hlg Hlt Hl Hr [H1 H2].
  pose proof (zget_Some_bounds _ _ _ Hx) as Hi.
  assert (Hpar : getParentIndex lg = i).
  { unfold getParentIndex, getLeftChildIndex, getRightChildIndex in *. lia. }
  assert (Hchild : ∀ c y, getParentIndex c = i → zget h c = Some y →
                          key y ≤ key m).
  { intros c y Hp Hy. pose proof (zget_Some_bounds _ _ _ Hy).
    unfold getParentIndex, getLeftChildIndex, getRightChildIndex in *.
    assert (c = 2 * i + 1 ∨ c = 2 * i + 2) as [->| ->] by lia; auto. }
  split.
  - intros c Hc Hp a b.
    rewrite !(zget_swapped h i lg x m) by done.
    repeat case_decide; intros; simplify_eq; try lia;
      first [ by eapply Hchild; eauto
            | by eapply (H1 c); eauto
            | eapply (H2 lg); eauto; lia ].
  - intros c Hpos Hp a b. rewrite Hpar.
    rewrite !(zget_swapped h i lg x m) by done.
    assert (c ≠ lg ∧ c ≠ i ∧ i ≠ lg).
    { unfold getParentIndex, getLeftChildIndex, getRightChildIndex in *. lia. }
    repeat case_decide; intros; simplify_eq; try lia.
    eapply (H1 c); eauto;
      unfold getParentIndex, getLeftChildIndex, getRightChildIndex in *; lia.
Qed.

Lemma heapifyDown_spec fuel h i :
  0 ≤ i < size h → size h - i ≤ Z.of_nat fuel →
  ∃ h', MaxHeap.heapifyDown key fuel h i = Ok h' ∧ h' ≡ₚ h ∧
        (down_inv key h i → heap_ok key h').
Proof.
  revert h i. induction fuel as [|fuel IH]; intros h i Hi Hfuel; [lia|].
  rewrite heapifyDown_unfold.
  destruct (pick_largest_spec h i Hi)
    as (lg & m & x & -> & Hx & Hm & Hcase & Hle & Hl & Hr).
  cbn. destruct Hcase as [-> | [Hlg Hlt]].
  - rewrite Z.eqb_refl. exists h. split_and!; [done..|].
    simplify_eq. by apply down_inv_done with x.
  - pose proof (zget_Some_bounds _ _ _ Hm) as Hb.
    assert (i < lg) by (unfold getLeftChildIndex, getRightChildIndex in *; lia).
    destruct (Z.eqb_spec lg i); [lia|].
    rewrite (swap_Ok h i lg x m) by done. cbn.
    pose proof (swapped_Permutation h i lg x m Hx Hm) as Hperm.
    destruct (IH (<[Z.to_nat lg := x]> (<[Z.to_nat i := m]> h)) lg)
      as (h' & -> & Hperm' & Hok).
    + rewrite (size_Permutation _ _ Hperm). lia.
    + rewrite (size_Permutation _ _ Hperm). lia.
    + exists h'. split_and!; [done|by etrans|].
      intros Hinv. apply Hok. by apply down_inv_swapped.
Qed.


Lemma up_inv_done h c a b :
  zget h (getParentIndex c) = Some a → zget h c = Some b → key b ≤ key a →
  up_inv key h c → heap_ok key h.
Proof.
  intros Ha Hb Hle [H1 H2] c' Hc'.
  destruct (decide (c' = c)) as [->|Hne]; [|by apply H1].
  intros x y Hx Hy. by simplify_eq.
Qed.

Lemma up_inv_root h : up_inv key h 0 → heap_ok key h.
Proof. intros [H1 _] c Hc. apply H1; lia. Qed.

Lemma up_inv_swapped h c a b :
  0 < c →
  zget h (getParentIndex c) = Some a → zget h c = Some b → key a < key b →
  up_inv key h c →
  up_inv key (<[Z.to_nat (getParentIndex c) := b]> (<[Z.to_nat c := a]> h))
    (getParentIndex c).
Proof.
  intros Hc Ha Hb Hlt [H1 H2].
  pose proof (zget_Some_bounds _ _ _ Ha) as Hp.
  set (p := getParentIndex c) in *.
  assert (Hpc : p < c) by (unfold p, getParentIndex; lia).
  split.
  - intros c' Hc' Hne x y.
    rewrite !(zget_swapped h c p b a) by done.
    destruct (decide (c' = p)) as [|_]; [done|].
    destruct (decide (c' = c)) as [->|Hcc].
    + fold p. destruct (decide (p = p)); [|done]. intros; simplify_eq. lia.
    + destruct (decide (getParentIndex c' = p)) as [Hq|Hq].
      * intros ? Hy; simplify_eq.
        assert (key y ≤ key a); [|lia].
        apply (H1 c' Hc' Hcc); [by rewrite Hq|done].
      * destruct (decide (getParentIndex c' = c)) as [Hq'|Hq'].
        -- intros [= <-] Hy. by apply (H2 c' Hc Hq' a y).
        -- intros Hx Hy. by apply (H1 c' Hc' Hcc x y).
  - intros c' Hpos Hq x y.
    rewrite !(zget_swapped h c p b a) by done.
    assert (getParentIndex p < p) by (unfold getParentIndex; lia).
    destruct (decide (getParentIndex p = p)); [lia|].
    destruct (decide (getParentIndex p = c)); [lia|].
    destruct (decide (c' = p)) as [->|Hcp]; [lia|].
    intros Hx.
    assert (key a ≤ key x) by (apply (H1 p Hpos); [lia|done..]).
    destruct (decide (c' = c)) as [->|Hcc].
    + intros; by simplify_eq.
    + intros Hy. assert (key y ≤ key a); [|lia].
      apply (H1 c'); [unfold getParentIndex in *; lia|done|by rewrite Hq|done].
Qed.

Lemma heapifyUp_loop_spec fuel h c :
  0 ≤ c < size h → (Z.to_nat c < fuel)%nat →
  ∃ h', MaxHeap.heapifyUp_loop key fuel h c (getParentIndex c) = Ok h' ∧
        h' ≡ₚ h ∧ (up_inv key h c → heap_ok key h').
Proof.
  revert h c. induction fuel as [|fuel IH]; intros h c Hc Hfuel; [lia|].
  cbn [MaxHeap.heapifyUp_loop].
  destruct (Z.ltb_spec 0 c) as [Hpos|Hzero].
  - destruct (zget_in_range h (getParentIndex c)) as [a Ha].
    { unfold getParentIndex. lia. }
    destruct (zget_in_range h c Hc) as [b Hb].
    rewrite (elemAt_Ok _ _ _ Ha), (elemAt_Ok _ _ _ Hb). cbn.
    destruct (Z.ltb_spec (key a) (key b)) as [Hlt|Hge].
    + rewrite (swap_Ok h c _ b a) by done. cbn.
      pose proof (swapped_Permutation h c _ b a Hb Ha) as Hperm.
      destruct (IH (<[Z.to_nat (getParentIndex c) := b]>
                      (<[Z.to_nat c := a]> h)) (getParentIndex c))
        as (h' & -> & Hperm' & Hok).
      * rewrite (size_Permutation _ _ Hperm). unfold getParentIndex. lia.
      * unfold getParentIndex. lia.
      * exists h'. split_and!; [done|by etrans|].
        intros Hinv. apply Hok. by apply up_inv_swapped.
    + exists h. split_and!; [done..|]. by apply up_inv_done with a b.
  - exists h. split_and!; [done..|].
    assert (c = 0) as -> by lia. apply up_inv_root.
Qed.

Lemma insert_spec h x :
  ∃ h', MaxHeap.insert key h x = Ok h' ∧ h' ≡ₚ x :: h ∧
        (heap_ok key h → heap_ok key h').
Proof.
  unfold MaxHeap.insert, MaxHeap.heapifyUp, push.
  assert (Hsz : size (h ++ [x]) = size h + 1).
  { unfold size. rewrite length_app. cbn. lia. }
  destruct (heapifyUp_loop_spec (S (Z.to_nat (size (h ++ [x]) - 1)))
              (h ++ [x]) (size (h ++ [x]) - 1))
    as (h' & Heq & Hperm & Hok).
  { rewrite Hsz. unfold size. lia. }
  { lia. }
  exists h'. split_and!; [done| |].
  - rewrite Hperm. by rewrite Permutation_app_comm.
  - intros Hheap. apply Hok. rewrite Hsz.
    replace (size h + 1 - 1) with (size h) by lia.
    assert (Hout : ∀ n y, size h < n → zget (h ++ [x]) n = Some y → False).
    { intros n y Hn Hy%zget_Some_bounds. lia. }
    split.
    + intros c Hc Hne a b Ha Hb.
      pose proof (zget_Some_bounds _ _ _ Hb).
      rewrite zget_app_l in Hb by lia.
      rewrite zget_app_l in Ha by (unfold getParentIndex; lia).
      by apply (Hheap c Hc a b).
    + intros c Hpos Hpar a b Ha Hb. exfalso. apply (Hout c b); [|done].
      unfold getParentIndex in *. lia.
Qed.


Lemma heap_root_max h x :
  heap_ok key h → zget h 0 = Some x → ∀ y, y ∈ h → key y ≤ key x.
Proof.
  intros Hok Hx.
  assert (Hind : ∀ (n : nat) j y,
            Z.to_nat j = n → zget h j = Some y → key y ≤ key x).
  { induction n as [n IH] using lt_wf_ind. intros j y Hn Hy.
    pose proof (zget_Some_bounds _ _ _ Hy) as Hj.
    destruct (decide (j = 0)) as [->|Hne]; [by simplify_eq|].
    destruct (zget_in_range h (getParentIndex j)) as [z Hz].
    { unfold getParentIndex. lia. }
    assert (key y ≤ key z) by (apply (Hok j); [lia|done..]).
    assert (key z ≤ key x); [|lia].
    apply (IH (Z.to_nat (getParentIndex j))) with (getParentIndex j);
      [unfold getParentIndex; lia|done..]. }
  intros y [j Hy]%elem_of_zget. by apply (Hind _ j y eq_refl).
Qed.

Lemma zget_cons_pos (a b : A) (t : list A) n :
  0 < n → zget (a :: t) n = zget (b :: t) n.
Proof.
  intros Hn. unfold zget. destruct (decide (0 ≤ n)); [|done].
  destruct (Z.to_nat n) as [|k] eqn:Hk; [lia|done].
Qed.

Lemma extractMax_nil : MaxHeap.extractMax key [] = Ok (None, []).
Proof. done. Qed.

Lemma extractMax_cons x t :
  ∃ h', MaxHeap.extractMax key (x :: t) = Ok (Some x, h') ∧
        x :: h' ≡ₚ x :: t ∧
        (heap_ok key (x :: t) → heap_ok key h').
Proof.
  destruct (decide (t = [])) as [->|Hne].
  { exists []. split_and!; [done..|]. intros _ c _ a b Ha.
    by apply zget_Some_bounds in Ha; unfold size in Ha; cbn in Ha; lia. }
  destruct (exists_last Hne) as (t' & l & ->).
  unfold MaxHeap.extractMax.
  change (x :: t' ++ [l]) with ((x :: t') ++ [l]).
  rewrite last_last, removelast_last.
  replace (0 <? size (x :: t')) with true
    by (symmetry; apply Z.ltb_lt; unfold size; cbn; lia).
  cbn [insert list_insert].
  destruct (heapifyDown_spec (length (l :: t')) (l :: t') 0)
    as (h' & -> & Hperm & Hok).
  { unfold size. cbn. lia. }
  { unfold size. lia. }
  exists h'. cbn. split_and!; [done| |].
  - rewrite Hperm. cbn. constructor. apply Permutation_cons_append.
  - intros Hheap. apply Hok. split; [|lia].
    intros c Hc Hp a b Ha Hb.
    pose proof (zget_Some_bounds _ _ _ Hb) as Hcb.
    assert (0 < getParentIndex c) by (unfold getParentIndex in *; lia).
    assert (Hsz : size (l :: t') = size (x :: t')) by done.
    rewrite (zget_cons_pos l x) in Ha, Hb by done.
    rewrite <- (zget_app_l _ l) in Ha by (unfold getParentIndex; lia).
    rewrite <- (zget_app_l _ l) in Hb by lia.
    by apply (Hheap c Hc a b).
Qed.

Lemma peek_head h : MaxHeap.peek h = head h.
Proof. by destruct h. Qed.

End MaxHeapFacts.

(** * MinHeap as a MaxHeap on the negated key *)

Lemma gtb_neg_ltb a b : (a >? b) = (- a <? - b).
Proof. rewrite Z.gtb_ltb. destruct (Z.ltb_spec b a), (Z.ltb_spec (- a) (- b)); lia. Qed.

Lemma ltb_neg_gtb a b : (a <? b) = (- a >? - b).
Proof. rewrite Z.gtb_ltb. destruct (Z.ltb_spec a b), (Z.ltb_spec (- b) (- a)); lia. Qed.

Lemma MinHeap_heapifyUp_loop_eq fuel heap c p :
  MinHeap.heapifyUp_loop fuel heap c p =
  MaxHeap.heapifyUp_loop negCount fuel heap c p.
Proof.
  revert heap c p. induction fuel as [|fuel IH]; intros heap c p; [done|].
  cbn [MinHeap.heapifyUp_loop MaxHeap.heapifyUp_loop].
  destruct (0 <? c); [|done].
  destruct (elemAt heap p) as [a|]; [|done]. cbn.
  destruct (elemAt heap c) as [b|]; [|done]. cbn.
  unfold negCount. rewrite <- gtb_neg_ltb.
  destruct (postCount a >? postCount b); [|done].
  destruct (swap heap c p); [|done]. cbn. apply IH.
Qed.

Lemma MinHeap_insert_eq heap user :
  MinHeap.insert heap user = MaxHeap.insert negCount heap user.
Proof. apply MinHeap_heapifyUp_loop_eq. Qed.

Lemma MinHeap_heapifyDown_eq fuel heap i :
  MinHeap.heapifyDown fuel heap i = MaxHeap.heapifyDown negCount fuel heap i.
Proof.
  revert heap i. induction fuel as [|fuel IH]; intros heap i; [done|].
  cbn [MinHeap.heapifyDown MaxHeap.heapifyDown].
  assert (Hsel : ∀ j k : Z,
    (l ← elemAt heap j; c ← elemAt heap k;
     Ok (if postCount l <? postCount c then j else k)) =
    (l ← elemAt heap j; c ← elemAt heap k;
     Ok (if negCount l >? negCount c then j else k))).
  { intros j k. destruct (elemAt heap j) as [l|]; [|done]. cbn.
    destruct (elemAt heap k) as [c|]; [|done]. cbn.
    unfold negCount. by rewrite <- ltb_neg_gtb. }
  rewrite Hsel.
  destruct (if getLeftChildIndex i <? size heap then _ else _) as [lg|]; [|done].
  cbn. rewrite Hsel.
  destruct (if getRightChildIndex i <? size heap then _ else _) as [lg'|]; [|done].
  cbn. destruct (lg' =? i); [done|].
  destruct (swap heap i lg'); [|done]. cbn. apply IH.
Qed.

Lemma MinHeap_extractMin_eq heap :
  MinHeap.extractMin heap = MaxHeap.extractMax negCount heap.
Proof.
  unfold MinHeap.extractMin, MaxHeap.extractMax.
  destruct heap; [done|]. by rewrite MinHeap_heapifyDown_eq.
Qed.

(** * Sorting facts *)

#[global] Instance desc_trans : Transitive desc.
Proof. unfold desc. intros x y z ? ?. lia. Qed.

#[global] Instance desc_antisymm : AntiSymm (=) desc.
Proof. unfold desc. intros x y ? ?. lia. Qed.

#[global] Instance desc_total : Total desc.
Proof. unfold desc. intros x y. lia. Qed.

#[global] Instance descBy_trans {A} (f : A → Z) : Transitive (descBy f).
Proof. unfold descBy. intros x y z ? ?. lia. Qed.

Lemma StronglySorted_descBy_fmap {A} (f : A → Z) (l : list A) :
  StronglySorted (descBy f) l → StronglySorted desc (f <$> l).
Proof.
  intros Hs. apply Sorted_StronglySorted; [apply _|].
  apply (Sorted_fmap f (descBy f) desc); [done|].
  by apply StronglySorted_Sorted.
Qed.

Lemma top_split_nil {A} (f : A → Z) k : top_split f k [] [] [].
Proof. by split_and!; [done|intros ?? ?%elem_of_nil|destruct k]. Qed.

Lemma top_split_perm {A} (f : A → Z) k all kept kept' rest :
  kept' ≡ₚ kept → top_split f k all kept rest → top_split f k all kept' rest.
Proof.
  intros Hp (H1 & H2 & H3). split_and!.
  - by rewrite Hp.
  - intros t r Ht. apply H2. by rewrite <- Hp.
  - by rewrite Hp.
Qed.

Lemma top_split_rest_nil {A} (f : A → Z) k all kept rest :
  top_split f k all kept rest → (length kept < k)%nat → rest = [].
Proof.
  intros (H1 & _ & H3) Hlt. apply Permutation_length in H1.
  rewrite length_app in H1. destruct rest; [done|]. cbn in H1. lia.
Qed.

(** The kept items, once sorted, carry the scores that a full sort puts
    first. *)
Lemma top_split_bruteForce {A} (f : A → Z) k all kept rest :
  top_split f k all kept rest → StronglySorted (descBy f) kept →
  f <$> kept = bruteForceTop k (f <$> all).
Proof.
  intros Hsplit Hsorted. pose proof Hsplit as (Hperm & Hord & Hlen).
  unfold bruteForceTop.
  assert (Heq : merge_sort desc (f <$> all) =
                (f <$> kept) ++ merge_sort desc (f <$> rest)).
  { apply (Sorted_unique desc).
    - apply Sorted_merge_sort, _.
    - apply StronglySorted_Sorted, StronglySorted_app_2.
      + intros x1 x2 [t [-> Ht]]%list_elem_of_fmap Hx2.
        rewrite merge_sort_Permutation in Hx2.
        apply list_elem_of_fmap in Hx2 as [r [-> Hr]]. by apply Hord.
      + by apply StronglySorted_descBy_fmap.
      + apply StronglySorted_merge_sort; apply _.
    - rewrite !merge_sort_Permutation, Hperm. by rewrite fmap_app. }
  rewrite Heq. symmetry.
  destruct (decide (length kept < k)%nat) as [Hlt|Hge].
  - rewrite (top_split_rest_nil f k all kept rest Hsplit Hlt). cbn.
    rewrite app_nil_r. apply take_ge. rewrite length_fmap. lia.
  - apply take_app_length'. rewrite length_fmap. lia.
Qed.

Lemma heap_ok_nil {A} (key : A → Z) : heap_ok key [].
Proof. intros c _ a b Ha. by apply zget_Some_bounds in Ha; unfold size in Ha; cbn in Ha; lia. Qed.

Lemma extractMax_step {A} (key : A → Z) (h : list A) :
  heap_ok key h → h ≠ [] →
  ∃ m h', MaxHeap.extractMax key h = Ok (Some m, h') ∧ head h = Some m ∧
          m :: h' ≡ₚ h ∧ heap_ok key h' ∧ ∀ y, y ∈ h → key y ≤ key m.
Proof.
  intros Hok Hne. destruct h as [|m t]; [done|].
  destruct (extractMax_cons key m t) as (h' & Heq & Hperm & Hok').
  exists m, h'. split_and!; [done..|by apply Hok'|].
  by apply heap_root_max.
Qed.

(** * The five most active users *)

Lemma keepFive_spec all heap rest user :
  heap_ok negCount heap → top_split postCount 5 all heap rest →
  ∃ heap' rest', apiService.keepFive heap user = Ok heap' ∧
    heap_ok negCount heap' ∧ top_split postCount 5 (all ++ [user]) heap' rest'.
Proof.
  intros Hok Hsplit. pose proof Hsplit as (Hperm & Hord & Hlen).
  unfold apiService.keepFive. rewrite MinHeap_insert_eq.
  destruct (insert_spec negCount heap user) as (h1 & -> & Hp1 & Hok1).
  specialize (Hok1 Hok). cbn.
  assert (Hsz : size h1 = size heap + 1).
  { unfold size. rewrite Hp1. cbn. lia. }
  assert (Hall : all ++ [user] ≡ₚ h1 ++ rest).
  { rewrite Hp1, Hperm. cbn. by rewrite <- Permutation_cons_append. }
  rewrite Z.gtb_ltb. destruct (Z.ltb_spec 5 (size h1)) as [Hbig|Hsmall].
  - rewrite MinHeap_extractMin_eq.
    destruct (extractMax_step negCount h1 Hok1) as (m & h2 & -> & _ & Hp2 & Hok2 & Hmin).
    { intros ->. unfold size in Hbig. cbn in Hbig. lia. }
    cbn. exists h2, (m :: rest). split_and!; [done..|].
    unfold top_split. split_and!.
    + rewrite Hall, <- Hp2. cbn. by rewrite Permutation_middle.
    + assert (Hmin' : ∀ y, y ∈ h1 → postCount m ≤ postCount y).
      { intros y Hy%Hmin. unfold negCount in Hy. lia. }
      intros t r Ht [->|Hr]%elem_of_cons.
      { apply Hmin'. rewrite <- Hp2. by right. }
      assert (Hm : m ∈ user :: heap).
      { rewrite <- Hp1, <- Hp2. by left. }
      apply elem_of_cons in Hm as [->|Hm].
      * apply (Hord t r); [|done].
        rewrite Hp1 in Hp2. apply Permutation_cons_inv in Hp2.
        by rewrite <- Hp2.
      * assert (postCount r ≤ postCount m) by by apply Hord.
        assert (postCount m ≤ postCount t); [|lia].
        apply Hmin'. rewrite <- Hp2. by right.
    + apply Permutation_length in Hp2. cbn in Hp2.
      unfold size in *. rewrite length_app. change (length [user]) with 1%nat.
      lia.
  - cbn. exists h1, rest. split_and!; [done..|].
    unfold top_split. split_and!; [done| |].
    + assert (rest = []) as ->; [|by intros ?? _ ?%elem_of_nil].
      apply (top_split_rest_nil postCount 5 all heap rest Hsplit).
      unfold size in *. lia.
    + apply Permutation_length in Hperm. rewrite length_app in *.
      unfold size in *. change (length [user]) with 1%nat. lia.
Qed.

Lemma for_of_keepFive users : ∀ all heap rest,
  heap_ok negCount heap → top_split postCount 5 all heap rest →
  ∃ heap' rest', for_of users apiService.keepFive heap = Ok heap' ∧
    heap_ok negCount heap' ∧ top_split postCount 5 (all ++ users) heap' rest'.
Proof.
  induction users as [|user users IH]; intros all heap rest Hok Hsplit.
  - exists heap, rest. by rewrite app_nil_r.
  - cbn [for_of].
    destruct (keepFive_spec all heap rest user Hok Hsplit)
      as (h1 & rest1 & -> & Hok1 & Hsplit1). cbn.
    destruct (IH _ _ _ Hok1 Hsplit1) as (h2 & rest2 & -> & Hok2 & Hsplit2).
    exists h2, rest2. split_and!; [done..|].
    by rewrite <- app_assoc in Hsplit2.
Qed.

Lemma drain_spec fuel : ∀ heap topUsers,
  heap_ok negCount heap → (length heap < fuel)%nat →
  StronglySorted (descBy postCount) topUsers →
  (∀ a y, a ∈ topUsers → y ∈ heap → postCount a ≤ postCount y) →
  ∃ r, apiService.drain fuel heap topUsers = Ok r ∧
       r ≡ₚ heap ++ topUsers ∧ StronglySorted (descBy postCount) r.
Proof.
  induction fuel as [|fuel IH]; intros heap topUsers Hok Hfuel Hsorted Hlow;
    [lia|].
  cbn [apiService.drain]. rewrite Z.gtb_ltb.
  destruct (Z.ltb_spec 0 (size heap)) as [Hpos|Hzero].
  - rewrite MinHeap_extractMin_eq.
    destruct (extractMax_step negCount heap Hok)
      as (m & h2 & -> & _ & Hp2 & Hok2 & Hmin).
    { intros ->. unfold size in Hpos. cbn in Hpos. lia. }
    cbn.
    assert (Hmin' : ∀ y, y ∈ heap → postCount m ≤ postCount y).
    { intros y Hy%Hmin. unfold negCount in Hy. lia. }
    destruct (IH h2 (m :: topUsers)) as (r & -> & Hpr & Hsr).
    + done.
    + apply Permutation_length in Hp2. cbn in Hp2. lia.
    + constructor; [done|]. apply Forall_forall. intros a Ha.
      unfold descBy. apply Hlow; [done|]. rewrite <- Hp2. by left.
    + intros a y [->|Ha]%elem_of_cons Hy.
      * apply Hmin'. rewrite <- Hp2. by right.
      * apply Hlow; [done|]. rewrite <- Hp2. by right.
    + exists r. split_and!; [done| |done].
      rewrite Hpr, <- Hp2. cbn. by rewrite Permutation_middle.
  - exists topUsers. split_and!; [done| |done].
    destruct heap; [done|]. unfold size in Hzero. cbn in Hzero. lia.
Qed.

Lemma topUsersOf_spec users :
  ∃ topUsers rest, apiService.topUsersOf users = Ok topUsers ∧
    StronglySorted (descBy postCount) topUsers ∧
    top_split postCount 5 users topUsers rest.
Proof.
  unfold apiService.topUsersOf.
  destruct (for_of_keepFive users [] [] [] (heap_ok_nil _) (top_split_nil _ _))
    as (heap & rest & -> & Hok & Hsplit). cbn [mbind outcome_bind].
  destruct (drain_spec (S (length heap)) heap [] Hok) as (r & -> & Hp & Hs).
  - lia.
  - constructor.
  - by intros a y ?%elem_of_nil.
  - exists r, rest. split_and!; [done..|].
    apply top_split_perm with heap; [|done]. by rewrite Hp, app_nil_r.
Qed.

(** * The latest posts *)

Lemma for_of_insert {A} (key : A → Z) (items : list A) : ∀ heap,
  ∃ heap', for_of items (MaxHeap.insert key) heap = Ok heap' ∧
           heap' ≡ₚ heap ++ items ∧ (heap_ok key heap → heap_ok key heap').
Proof.
  induction items as [|x items IH]; intros heap.
  - exists heap. by rewrite app_nil_r.
  - cbn [for_of].
    destruct (insert_spec key heap x) as (h1 & -> & Hp1 & Hok1).
    cbn [mbind outcome_bind].
    destruct (IH h1) as (h2 & -> & Hp2 & Hok2).
    exists h2. split_and!; [done| |by auto].
    rewrite Hp2, Hp1. cbn. by rewrite Permutation_middle.
Qed.

Lemma extractMany_spec {A} (key : A → Z) (count : nat) : ∀ heap out,
  heap_ok key heap → (count ≤ length heap)%nat →
  ∃ s rest, apiService.extractMany key count heap out = Ok (out ++ s) ∧
    length s = count ∧ heap ≡ₚ s ++ rest ∧
    StronglySorted (descBy key) s ∧
    (∀ t r, t ∈ s → r ∈ rest → key r ≤ key t).
Proof.
  induction count as [|count IH]; intros heap out Hok Hlen.
  - exists [], heap. cbn. rewrite app_nil_r.
    split_and!; [done..|constructor|]. by intros ?? ?%elem_of_nil.
  - cbn [apiService.extractMany].
    destruct (extractMax_step key heap Hok)
      as (m & h2 & -> & _ & Hp2 & Hok2 & Hmax).
    { intros ->. cbn in Hlen. lia. }
    cbn [mbind outcome_bind].
    destruct (IH h2 (out ++ [m]) Hok2) as (s & rest & -> & Hs & Hp & Hsort & Hord).
    { apply Permutation_length in Hp2. cbn in Hp2. lia. }
    assert (Hin : ∀ y, y ∈ h2 → y ∈ heap).
    { intros y Hy. rewrite <- Hp2. by right. }
    exists (m :: s), rest. split_and!.
    + by rewrite <- app_assoc.
    + cbn. by rewrite Hs.
    + rewrite <- Hp2, Hp. done.
    + constructor; [done|]. apply Forall_forall. intros y Hy.
      apply Hmax, Hin. rewrite Hp. apply elem_of_app. by left.
    + intros t r [->|Ht]%elem_of_cons Hr; [|by apply Hord].
      apply Hmax, Hin. rewrite Hp. apply elem_of_app. by right.
Qed.

Lemma latestOf_spec allPosts :
  ∃ latestPosts rest, apiService.latestOf allPosts = Ok latestPosts ∧
    StronglySorted (descBy tagged_id) latestPosts ∧
    top_split tagged_id 5 allPosts latestPosts rest.
Proof.
  unfold apiService.latestOf.
  destruct (for_of_insert tagged_id allPosts []) as (heap & -> & Hp & Hok).
  cbn [mbind outcome_bind]. cbn [app] in Hp.
  specialize (Hok (heap_ok_nil _)).
  destruct (extractMany_spec tagged_id (Z.to_nat (Z.min 5 (size heap))) heap []
              Hok) as (s & rest & -> & Hlen & Hps & Hsort & Hord).
  { unfold size. lia. }
  exists s, rest. cbn [app]. split_and!; [done..|].
  unfold top_split. split_and!; [by rewrite <- Hp|done|].
  rewrite Hlen, <- Hp. unfold size. lia.
Qed.

(** * The most commented posts *)

Lemma sort_insert_Permutation {A} (compare : A → A → Z) x l :
  sort_insert compare x l ≡ₚ x :: l.
Proof.
  induction l as [|y l IH]; cbn; [done|].
  destruct (compare x y <=? 0); [done|]. rewrite IH. apply perm_swap.
Qed.

Lemma Array_sort_Permutation {A} (compare : A → A → Z) l :
  Array_sort compare l ≡ₚ l.
Proof.
  induction l as [|x l IH]; cbn; [done|].
  by rewrite sort_insert_Permutation, IH.
Qed.

Lemma sort_insert_newestFirst x l :
  Sorted (descBy ranked_id) l →
  Sorted (descBy ranked_id) (sort_insert apiService.newestFirst x l).
Proof.
  induction l as [|y l IH]; intros Hs; cbn.
  - by repeat constructor.
  - unfold apiService.newestFirst at 1.
    destruct (Z.leb_spec (ranked_id y - ranked_id x) 0) as [Hle|Hgt].
    + constructor; [done|]. constructor. unfold descBy. lia.
    + apply Sorted_inv in Hs as [Hs Hhd]. constructor; [by apply IH|].
      destruct l as [|z l]; cbn.
      * constructor. unfold descBy. lia.
      * destruct (apiService.newestFirst x z <=? 0).
        -- constructor. unfold descBy. lia.
        -- constructor. by apply HdRel_inv in Hhd.
Qed.

Lemma Array_sort_newestFirst l :
  StronglySorted (descBy ranked_id) (Array_sort apiService.newestFirst l).
Proof.
  apply Sorted_StronglySorted; [apply _|].
  induction l as [|x l IH]; cbn; [constructor|].
  by apply sort_insert_newestFirst.
Qed.

Lemma filter_all {A} (P : A → Prop) `{∀ x, Decision (P x)} (l : list A) :
  Forall P l → filter P l = l.
Proof.
  induction 1 as [|x l Hx _ IH]; [done|].
  by rewrite filter_cons_True, IH.
Qed.

Lemma filter_none {A} (P : A → Prop) `{∀ x, Decision (P x)} (l : list A) :
  Forall (λ x, ¬ P x) l → filter P l = [].
Proof.
  induction 1 as [|x l Hx _ IH]; [done|].
  by rewrite filter_cons_False, IH.
Qed.

Lemma extractTied_spec fuel maxComments : ∀ heap out,
  heap_ok commentCount heap → (length heap < fuel)%nat →
  (∀ y, y ∈ heap → commentCount y ≤ maxComments) →
  ∃ s rest, apiService.extractTied fuel maxComments heap out = Ok (out ++ s) ∧
    heap ≡ₚ s ++ rest ∧
    (∀ y, y ∈ s → commentCount y = maxComments) ∧
    (∀ y, y ∈ rest → commentCount y < maxComments).
Proof.
  induction fuel as [|fuel IH]; intros heap out Hok Hfuel Hmax; [lia|].
  cbn [apiService.extractTied]. rewrite Z.gtb_ltb.
  destruct (Z.ltb_spec 0 (size heap)) as [Hpos|Hzero].
  - destruct (extractMax_step commentCount heap Hok)
      as (m & h2 & Hex & Hhd & Hp2 & Hok2 & Hroot).
    { intros ->. unfold size in Hpos. cbn in Hpos. lia. }
    rewrite peek_head, Hhd.
    destruct (Z.eqb_spec (commentCount m) maxComments) as [Heq|Hne].
    + rewrite Hex. cbn [mbind outcome_bind].
      destruct (IH h2 (out ++ [m]) Hok2) as (s & rest & -> & Hp & Hs & Hr).
      { apply Permutation_length in Hp2. cbn in Hp2. lia. }
      { intros y Hy. apply Hmax. rewrite <- Hp2. by right. }
      exists (m :: s), rest. split_and!.
      * by rewrite <- app_assoc.
      * by rewrite <- Hp2, Hp.
      * by intros y [->|Hy]%elem_of_cons; [|apply Hs].
      * done.
    + exists [], heap. rewrite app_nil_r. split_and!; [done..| |].
      * by intros y ?%elem_of_nil.
      * intros y Hy. pose proof (Hroot y Hy).
        assert (commentCount m ≤ maxComments); [|lia].
        apply Hmax. rewrite <- Hp2. by left.
  - exists [], []. rewrite app_nil_r.
    destruct heap; [|unfold size in Hzero; cbn in Hzero; lia].
    split_and!; [done..| |]; by intros y ?%elem_of_nil.
Qed.

Lemma mostCommented_spec heap :
  heap_ok commentCount heap → heap ≠ [] →
  ∃ result maxComments,
    apiService.mostCommented heap = Ok result ∧
    (∀ y, y ∈ heap → commentCount y ≤ maxComments) ∧
    (∃ y, y ∈ heap ∧ commentCount y = maxComments) ∧
    result ≡ₚ filter (λ post, commentCount post = maxComments) heap ∧
    StronglySorted (descBy ranked_id) result.
Proof.
  intros Hok Hne. unfold apiService.mostCommented. rewrite peek_head.
  destruct heap as [|top t] eqn:Hheap; [done|]. cbn [head].
  assert (Hroot : ∀ y, y ∈ top :: t → commentCount y ≤ commentCount top)
    by by apply heap_root_max.
  destruct (extractTied_spec (S (length (top :: t))) (commentCount top)
              (top :: t) [] Hok) as (s & rest & -> & Hp & Hs & Hr); [lia|done|].
  cbn [mbind outcome_bind app].
  exists (Array_sort apiService.newestFirst s), (commentCount top).
  split_and!; [done|done|exists top; split; [by left|done]| |].
  - rewrite Array_sort_Permutation, Hp, filter_app.
    rewrite (filter_all _ s), (filter_none _ rest).
    + by rewrite app_nil_r.
    + apply Forall_forall. intros y Hy%Hr. lia.
    + by apply Forall_forall.
  - apply Array_sort_newestFirst.
Qed.

(** * Running the service *)

(** Runs the monadic structure of a computation over the store, leaving the
    calls into the heaps folded. *)
Ltac run_M :=
  unfold mbind, M_bind, mret, M_ret, try_catch, lift; cbv beta iota zeta;
  cbn [fst snd].

Lemma for_of_ext {A B} (f g : B → A → outcome B) (l : list A) (acc : B) :
  (∀ b x, x ∈ l → f b x = g b x) → for_of l f acc = for_of l g acc.
Proof.
  revert acc. induction l as [|x l IH]; intros acc Hfg; [done|].
  cbn [for_of]. rewrite Hfg by by left.
  destruct (g acc x); [|done]. cbn [mbind outcome_bind].
  apply IH. intros b y Hy. apply Hfg. by right.
Qed.

Lemma for_of_fmap {A A' B} (g : A → A') (f : B → A' → outcome B)
    (l : list A) (acc : B) :
  for_of l (λ b x, f b (g x)) acc = for_of (g <$> l) f acc.
Proof.
  revert acc. induction l as [|x l IH]; intros acc; [done|].
  cbn [for_of fmap list_fmap]. destruct (f acc (g x)); [|done]. apply IH.
Qed.

(** The comment heap of [getPopularPosts] when every comments response
    carries its list. *)
Lemma commentHeap_spec up (posts : list TaggedPost) :
  (∀ p, p ∈ posts → apiService.fetchPostComments up (tagged_id p) ≠ None) →
  ∃ heap,
    for_of posts
      (λ commentHeap post,
         match apiService.fetchPostComments up (tagged_id post) with
         | None => Throw TypeError
         | Some comments =>
             MaxHeap.insert commentCount commentHeap
               (mkRanked post (size comments))
         end) [] = Ok heap ∧
    heap ≡ₚ rankPost up <$> posts ∧ heap_ok commentCount heap.
Proof.
  intros Hsome.
  rewrite (for_of_ext _
    (λ commentHeap post,
       MaxHeap.insert commentCount commentHeap (rankPost up post))).
  - rewrite (for_of_fmap (rankPost up)).
    destruct (for_of_insert commentCount (rankPost up <$> posts) [])
      as (heap & -> & Hp & Hok).
    exists heap. split_and!; [done..|]. apply Hok, heap_ok_nil.
  - intros b p Hp. unfold rankPost.
    destruct (apiService.fetchPostComments up (tagged_id p)) eqn:Hc; [done|].
    by apply Hsome in Hp.
Qed.

Lemma top_split_all {A} (f : A → Z) k all kept rest :
  top_split f k all kept rest → (length all ≤ k)%nat → kept ≡ₚ all.
Proof.
  intros (H1 & _ & H3) Hle. pose proof (Permutation_length H1) as Hlen.
  rewrite length_app in Hlen. destruct rest as [|r rest].
  - by rewrite app_nil_r in H1.
  - cbn in Hlen. lia.
Qed.

Lemma top_split_ranked all kept rest :
  top_split postCount 5 all kept rest →
  StronglySorted (descBy postCount) kept → ranked_users kept.
Proof. intros (_ & _ & Hlen) Hs. split; [lia|done]. Qed.

Lemma ranked_users_nil : ranked_users [].
Proof. split; [cbn; lia|constructor]. Qed.

Lemma getTopUsers_miss up s entries :
  userCache s = None → users_of up = UsersObject entries →
  ∃ topUsers rest,
    apiService.topUsersOf (apiService.userWithPosts up entries) = Ok topUsers ∧
    StronglySorted (descBy postCount) topUsers ∧
    top_split postCount 5 (apiService.userWithPosts up entries) topUsers rest ∧
    fst (apiService.getTopUsers up s) = Ok topUsers ∧
    userCache (snd (apiService.getTopUsers up s)) = Some topUsers.
Proof.
  intros Hmiss Hup.
  destruct (topUsersOf_spec (apiService.userWithPosts up entries))
    as (topUsers & rest & Heq & Hsorted & Hsplit).
  exists topUsers, rest. split_and!; [done..| |];
    unfold apiService.getTopUsers, userCache_get, apiService.fetchUsers;
    run_M; rewrite Hmiss, Hup; run_M; cbn [apiService.Object_entries];
    by rewrite Heq.
Qed.

Lemma getTopUsers_ranked up s :
  user_views_ranked s →
  user_views_ranked (snd (apiService.getTopUsers up s)) ∧
  ∀ r, fst (apiService.getTopUsers up s) = Ok r → ranked_users r.
Proof.
  intros Hs. pose proof Hs as [Hapi Hsvc].
  assert (Hlog : ∀ op, user_views_ranked (logged op s)) by done.
  unfold apiService.getTopUsers, userCache_get, apiService.fetchUsers. run_M.
  destruct (userCache s) as [cached|] eqn:Hc.
  { run_M. split; [done|]. intros r [= <-]. by apply Hapi. }
  run_M. destruct (users_of up) as [| |entries]; run_M; [done| |].
  - cbn [apiService.Object_entries]. by run_M.
  - cbn [apiService.Object_entries].
    destruct (topUsersOf_spec (apiService.userWithPosts up entries))
      as (topUsers & rest & -> & Hsorted & Hsplit).
    pose proof (top_split_ranked _ _ _ Hsplit Hsorted) as Hranked.
    run_M. split.
    + split; [|done]. cbn. by intros l [= <-].
    + by intros r [= <-].
Qed.

(** Case analysis on a scrutinee of the goal that is not itself a match. *)
Ltac inner_case :=
  match goal with
  | |- context [match ?x with _ => _ end] =>
      lazymatch x with
      | match _ with _ => _ end => fail
      | (match _ with _ => _ end) _ => fail
      | _ => destruct x eqn:?
      end
  end.

Ltac run_cases :=
  run_M; repeat (inner_case; run_M); try done;
  try (split; reflexivity).

Lemma getLatestPosts_users up s :
  same_user_views s (snd (apiService.getLatestPosts up s)).
Proof.
  unfold apiService.getLatestPosts, latestPostsCache_get, latestPostsCache_set.
  run_cases.
Qed.

Lemma getPopularPosts_users up s :
  same_user_views s (snd (apiService.getPopularPosts up s)).
Proof.
  unfold apiService.getPopularPosts, popularPostsCache_get,
    popularPostsCache_set.
  run_cases.
Qed.

Lemma updatePostsCache_users up s :
  same_user_views s (snd (apiService.updatePostsCache up s)).
Proof.
  unfold apiService.updatePostsCache, latestPostsCache_set,
    popularPostsCache_set.
  run_cases.
Qed.

Lemma get_posts_users cfg up q s :
  same_user_views s (snd (app.get_posts cfg up q s)).
Proof.
  unfold app.get_posts, app.guarded, cacheService.getLatestPosts,
    cacheService.getPopularPosts, cacheService.setLatestPosts,
    cacheService.setPopularPosts.
  run_M.
  destruct (strict_eq _ "latest"); [|destruct (strict_eq _ "popular")]; run_M.
  - destruct (ttl_get _ _); run_M; [done|].
    pose proof (getLatestPosts_users up
      (logged (CacheGet "postsCache" "latest_posts") s)) as Hsame.
    destruct (apiService.getLatestPosts up _) as [[r|e] s']; run_M; exact Hsame.
  - destruct (ttl_get _ _); run_M; [done|].
    pose proof (getPopularPosts_users up
      (logged (CacheGet "postsCache" "popular_posts") s)) as Hsame.
    destruct (apiService.getPopularPosts up _) as [[r|e] s']; run_M; exact Hsame.
  - done.
Qed.

Lemma same_user_views_ranked s s' :
  same_user_views s s' → user_views_ranked s → user_views_ranked s'.
Proof. intros [H1 H2] [Ha Hb]. split; intros *; rewrite ?H1, ?H2; eauto. Qed.

Lemma updateUsersCache_ranked up s :
  user_views_ranked s →
  user_views_ranked (snd (apiService.updateUsersCache up s)).
Proof.
  intros [Hapi Hsvc].
  assert (Hnil : ∀ op t, user_views_ranked
    (logged op (mkStore (Some []) (latestPostsCache s) (popularPostsCache s)
       (usersCache s) (postsCache_latest s) (postsCache_popular s)
       (clock s) t))).
  { intros op t. split; [|done]. cbn. intros l [= <-]. apply ranked_users_nil. }
  unfold apiService.updateUsersCache, apiService.fetchUsers, userCache_set.
  run_M. destruct (users_of up) as [| |entries]; run_M; [done..|].
  destruct (size (apiService.userWithPosts up entries) =? 0); run_M; [done|].
  destruct (topUsersOf_spec (apiService.userWithPosts up entries))
    as (topUsers & rest & -> & Hsorted & Hsplit).
  run_M. split; [|done]. cbn. intros l [= <-].
  by apply top_split_ranked with (apiService.userWithPosts up entries) rest.
Qed.

Lemma get_users_ranked cfg up s :
  user_views_ranked s →
  user_views_ranked (snd (app.get_users cfg up s)) ∧
  ((∃ users, fst (app.get_users cfg up s) = mkResponse 200 (JsonUsers users) ∧
             ranked_users users) ∨
   fst (app.get_users cfg up s) =
     mkResponse 500 (JsonError "Internal Server Error")).
Proof.
  intros Hs. pose proof Hs as [Hapi Hsvc].
  unfold app.get_users, app.guarded, cacheService.getTopUsers,
    cacheService.setTopUsers, app.json.
  run_M.
  destruct (ttl_get (clock s) (usersCache s)) as [cached|] eqn:Hget; run_M.
  { split; [done|]. left. exists cached. split; [done|].
    unfold ttl_get in Hget. destruct (usersCache s) as [[l t]|]; [|done].
    destruct (_ || _); [|done]. injection Hget as <-. by apply (Hsvc l t). }
  assert (Hlog : user_views_ranked (logged (CacheGet "usersCache" "topUsers") s))
    by done.
  destruct (getTopUsers_ranked up _ Hlog) as [[Hapi' Hsvc'] Hres].
  destruct (apiService.getTopUsers up _) as [[topUsers|e] s']; run_M.
  - specialize (Hres topUsers eq_refl). split.
    + split; [done|]. cbn. unfold ttl_set. by intros l t [= <- _].
    + left. by exists topUsers.
  - split; [done|]. by right.
Qed.

Lemma run_ranked cfg e s :
  user_views_ranked s → user_views_ranked (run cfg e s).
Proof.
  intros Hs. destruct e as [now|up|up q|up|up]; cbn [run].
  - done.
  - by apply get_users_ranked.
  - apply (same_user_views_ranked s); [apply get_posts_users|done].
  - apply (same_user_views_ranked s); [apply updatePostsCache_users|done].
  - by apply updateUsersCache_ranked.
Qed.

Lemma reachable_ranked cfg s : reachable cfg s → user_views_ranked s.
Proof.
  induction 1 as [now|e s _ IH]; [by split|]. by apply run_ranked.
Qed.

Lemma getTopUsers_returns up s entries :
  users_of up = UsersObject entries →
  ∃ topUsers, fst (apiService.getTopUsers up s) = Ok topUsers.
Proof.
  intros Hup. destruct (userCache s) as [cached|] eqn:Hc.
  - exists cached. unfold apiService.getTopUsers, userCache_get. run_M.
    by rewrite Hc.
  - destruct (getTopUsers_miss up s entries Hc Hup)
      as (topUsers & _ & _ & _ & _ & Heq & _).
    by exists topUsers.
Qed.

Lemma fetchAllPosts_zero up :
  users_of up = UsersObject [] → apiService.fetchAllPosts up = [].
Proof.
  intros Hup. unfold apiService.fetchAllPosts, apiService.fetchUsers.
  by rewrite Hup.
Qed.

Lemma getTopUsers_zero up s :
  users_of up = UsersObject [] → no_views s →
  fst (apiService.getTopUsers up s) = Ok [].
Proof.
  intros Hup (Hu & _).
  unfold apiService.getTopUsers, userCache_get, apiService.fetchUsers. run_M.
  destruct (userCache s) as [l|] eqn:Hc; run_M.
  - by rewrite (Hu l).
  - by rewrite Hup.
Qed.

Lemma getLatestPosts_zero up s :
  users_of up = UsersObject [] → no_views s →
  fst (apiService.getLatestPosts up s) = Ok [].
Proof.
  intros Hup (_ & Hl & _).
  unfold apiService.getLatestPosts, latestPostsCache_get. run_M.
  destruct (latestPostsCache s) as [l|] eqn:Hc; run_M.
  - by rewrite (Hl l).
  - by rewrite (fetchAllPosts_zero up Hup).
Qed.

Lemma getPopularPosts_zero up s :
  users_of up = UsersObject [] → no_views s →
  fst (apiService.getPopularPosts up s) = Ok [].
Proof.
  intros Hup (_ & _ & Hp & _).
  unfold apiService.getPopularPosts, popularPostsCache_get. run_M.
  destruct (popularPostsCache s) as [l|] eqn:Hc; run_M.
  - by rewrite (Hp l).
  - by rewrite (fetchAllPosts_zero up Hup).
Qed.

Lemma ttl_get_Some {V} now (entry : option (V * Z)) v :
  ttl_get now entry = Some v → ∃ t, entry = Some (v, t).
Proof.
  unfold ttl_get. destruct entry as [[v' t]|]; [|done].
  destruct (_ || _); [|done]. intros [= <-]. by exists t.
Qed.

Lemma foldl_concat {A B} (f : A → list B) (l : list A) (acc : list B) :
  foldl (λ acc x, acc ++ f x) acc l = acc ++ concat (map f l).
Proof.
  revert acc. induction l as [|x l IH]; intros acc; cbn.
  - by rewrite app_nil_r.
  - by rewrite IH, app_assoc.
Qed.

Lemma concat_map_filter {A B} (f : A → list B) (P : A → Prop)
    `{∀ x, Decision (P x)} (l : list A) :
  (∀ x, ¬ P x → f x = []) →
  concat (map f (filter P l)) = concat (map f l).
Proof.
  intros Hf. induction l as [|x l IH]; [done|].
  destruct (decide (P x)) as [Hx|Hx].
  - rewrite filter_cons_True by done. cbn. by rewrite IH.
  - rewrite filter_cons_False by done. cbn. by rewrite IH, (Hf x Hx).
Qed.

Lemma fetchAllPosts_listing up entries :
  users_of up = UsersObject entries →
  apiService.fetchAllPosts up =
    concat (map (apiService.tagPosts up entries) (map fst entries)).
Proof.
  intros Hup. unfold apiService.fetchAllPosts, apiService.fetchUsers.
  rewrite Hup. apply (foldl_concat _ _ []).
Qed.

Lemma tagPosts_failed up entries userId :
  ¬ is_Some (posts_of up userId) → apiService.tagPosts up entries userId = [].
Proof.
  intros Hnone. unfold apiService.tagPosts, apiService.fetchUserPosts.
  destruct (posts_of up userId); [|done]. by destruct Hnone.
Qed.

Lemma updatePostsCache_writes up :
  ∃ latestPosts popularPosts, ∀ s,
    fst (apiService.updatePostsCache up s) = Ok tt ∧
    latestPostsCache (snd (apiService.updatePostsCache up s)) =
      Some latestPosts ∧
    popularPostsCache (snd (apiService.updatePostsCache up s)) =
      Some popularPosts.
Proof.
  unfold apiService.updatePostsCache, latestPostsCache_set,
    popularPostsCache_set.
  destruct (Z.eqb_spec (size (apiService.fetchAllPosts up)) 0) as [Hz|Hnz].
  { exists [], []. intros s. by run_M. }
  destruct (latestOf_spec (apiService.fetchAllPosts up))
    as (latestPosts & rest & Hlatest & _ & _).
  destruct (for_of_insert commentCount
              (rankPost up <$> apiService.fetchAllPosts up) [])
    as (heap & Hheap & Hperm & Hok).
  specialize (Hok (heap_ok_nil _)). cbn [app] in Hperm.
  rewrite <- (for_of_fmap (rankPost up)) in Hheap.
  assert (Hne : heap ≠ []).
  { intros ->. apply Permutation_length in Hperm.
    rewrite length_fmap in Hperm. unfold size in Hnz. cbn in Hperm. lia. }
  destruct (mostCommented_spec heap Hok Hne)
    as (popularPosts & maxComments & Hpopular & _).
  exists latestPosts, popularPosts. intros s. run_M.
  rewrite Hlatest. run_M.
  change (for_of (apiService.fetchAllPosts up) _ [])
    with (for_of (apiService.fetchAllPosts up)
            (λ b x, MaxHeap.insert commentCount b (rankPost up x)) []).
  rewrite Hheap. run_M.
  replace (size heap >? 0) with true.
  - by rewrite Hpopular.
  - symmetry. rewrite Z.gtb_ltb. apply Z.ltb_lt.
    destruct heap; [done|]. unfold size. cbn. lia.
Qed.

(** * The claims *)

(** C1. For every list of scored users, the selection of [getTopUsers]
    (insert each user into the min-heap, extract the minimum whenever the heap
    holds more than five) returns, without throwing, users whose post counts
    are exactly the five largest post counts of a brute-force descending sort
    of the input; the users returned are users of the input, and an input of
    fewer than five users is returned whole. *)
Theorem C1_top_five_selection (users : list User) :
  ∃ topUsers,
    apiService.topUsersOf users = Ok topUsers ∧
    postCount <$> topUsers = bruteForceTop 5 (postCount <$> users) ∧
    topUsers ⊆+ users ∧
    ((length users < 5)%nat → topUsers ≡ₚ users).
Proof.
  destruct (topUsersOf_spec users) as (topUsers & rest & Heq & Hsorted & Hsplit).
  exists topUsers. split_and!; [done| | |].
  - by apply top_split_bruteForce with rest.
  - destruct Hsplit as (Hperm & _). rewrite Hperm. by apply submseteq_inserts_r.
  - intros Hlen. pose proof Hsplit as (Hperm & _ & Hkept).
    rewrite (top_split_rest_nil _ _ _ _ _ Hsplit) in Hperm by lia.
    by rewrite app_nil_r in Hperm.
Qed.

(** Three users are returned whole. *)
Lemma C1_top_five_selection_witness :
  ∃ topUsers,
    apiService.topUsersOf
      [mkUser "u1" "Ann" 2; mkUser "u2" "Bob" 7; mkUser "u3" "Cid" 0] =
      Ok topUsers ∧
    topUsers ≡ₚ [mkUser "u1" "Ann" 2; mkUser "u2" "Bob" 7; mkUser "u3" "Cid" 0].
Proof.
  destruct (C1_top_five_selection
              [mkUser "u1" "Ann" 2; mkUser "u2" "Bob" 7; mkUser "u3" "Cid" 0])
    as (topUsers & Heq & _ & _ & Hall).
  exists topUsers. split; [exact Heq|]. apply Hall. cbn. lia.
Defined.

(** C2. When the service has fetched, in any order, five posts with the
    identifiers 1 to 5 whose comment lists have 3, 5, 5, 2 and 5 entries,
    [getPopularPosts] (on a cache miss) returns exactly the posts 5, 3 and 2,
    in that order, each with its comment count 5. *)
Theorem C2_popular_ties (up : Upstream) (s : Store)
    (p1 p2 p3 p4 p5 : TaggedPost) :
  popularPostsCache s = None →
  apiService.fetchAllPosts up ≡ₚ [p1; p2; p3; p4; p5] →
  tagged_id <$> [p1; p2; p3; p4; p5] = [1; 2; 3; 4; 5] →
  (λ id, size <$> apiService.fetchPostComments up id) <$> [1; 2; 3; 4; 5] =
    [Some 3; Some 5; Some 5; Some 2; Some 5] →
  fst (apiService.getPopularPosts up s) =
    Ok [mkRanked p5 5; mkRanked p3 5; mkRanked p2 5].
Proof.
  intros Hmiss Hposts Hids Hcomments.
  destruct p1 as [[i1 o1 c1] n1], p2 as [[i2 o2 c2] n2], p3 as [[i3 o3 c3] n3],
    p4 as [[i4 o4 c4] n4], p5 as [[i5 o5 c5] n5].
  cbn in Hids. injection Hids as -> -> -> -> ->.
  cbn in Hcomments.
  injection Hcomments as H1 H2 H3 H4 H5.
  destruct (apiService.fetchPostComments up 1) as [k1|] eqn:E1; [|done].
  destruct (apiService.fetchPostComments up 2) as [k2|] eqn:E2; [|done].
  destruct (apiService.fetchPostComments up 3) as [k3|] eqn:E3; [|done].
  destruct (apiService.fetchPostComments up 4) as [k4|] eqn:E4; [|done].
  destruct (apiService.fetchPostComments up 5) as [k5|] eqn:E5; [|done].
  cbn in H1, H2, H3, H4, H5. simplify_eq.
  set (q1 := mkTagged (mkPost 1 o1 c1) n1) in *.
  set (q2 := mkTagged (mkPost 2 o2 c2) n2) in *.
  set (q3 := mkTagged (mkPost 3 o3 c3) n3) in *.
  set (q4 := mkTagged (mkPost 4 o4 c4) n4) in *.
  set (q5 := mkTagged (mkPost 5 o5 c5) n5) in *.
  assert (Hranked : rankPost up <$> [q1; q2; q3; q4; q5] =
    [mkRanked q1 3; mkRanked q2 5; mkRanked q3 5; mkRanked q4 2; mkRanked q5 5]).
  { cbn. unfold rankPost. cbn. rewrite E1, E2, E3, E4, E5. cbn.
    by rewrite H1, H2, H3, H4, H5. }
  destruct (commentHeap_spec up (apiService.fetchAllPosts up))
    as (heap & Hheap & Hperm & Hok).
  { intros p Hp. rewrite Hposts in Hp.
    repeat (apply elem_of_cons in Hp as [->|Hp]); cbn; try congruence.
    by apply elem_of_nil in Hp. }
  rewrite Hposts, Hranked in Hperm.
  assert (Hne : heap ≠ []).
  { intros ->. by apply Permutation_nil_cons in Hperm. }
  destruct (mostCommented_spec heap Hok Hne)
    as (result & maxComments & Hres & Hmax & (y & Hy & Hymax) & Hfilter & Hsorted).
  assert (maxComments = 5) as ->.
  { assert (5 ≤ maxComments).
    { apply (Hmax (mkRanked q2 5)). rewrite Hperm, !elem_of_cons. auto. }
    rewrite Hperm in Hy.
    repeat (apply elem_of_cons in Hy as [->|Hy]); cbn in Hymax; try lia.
    by apply elem_of_nil in Hy. }
  rewrite Hperm in Hfilter. cbn in Hfilter.
  assert (result = [mkRanked q5 5; mkRanked q3 5; mkRanked q2 5]) as ->.
  { apply (Sorted_unique_strong (descBy ranked_id)).
    - intros x1 x2 Hx1 Hx2 Hle1 Hle2. rewrite Hfilter in Hx1.
      unfold descBy in *.
      repeat (apply elem_of_cons in Hx1 as [->|Hx1]);
        repeat (apply elem_of_cons in Hx2 as [->|Hx2]);
        try done; cbn in *; try lia;
        by (apply elem_of_nil in Hx1 || apply elem_of_nil in Hx2).
    - by apply StronglySorted_Sorted.
    - repeat constructor; unfold descBy; cbn; lia.
    - rewrite Hfilter. apply (Permutation_rev [_; _; _]). }
  unfold apiService.getPopularPosts, popularPostsCache_get. run_M.
  rewrite Hmiss. run_M. rewrite Hheap. run_M.
  destruct (Z.eqb_spec (size heap) 0) as [Hz|_].
  { destruct heap; [done|]. unfold size in Hz. cbn in Hz. lia. }
  run_M. by rewrite Hres.
Qed.

(** The upstream with one user and the posts 1 to 5. *)
Lemma C2_popular_ties_witness :
  fst (apiService.getPopularPosts tiedUpstream (emptyStore 0)) =
    Ok [mkRanked (mkTagged (samplePost 5 "u1") (Some "Ann")) 5;
        mkRanked (mkTagged (samplePost 3 "u1") (Some "Ann")) 5;
        mkRanked (mkTagged (samplePost 2 "u1") (Some "Ann")) 5].
Proof.
  apply (C2_popular_ties tiedUpstream (emptyStore 0)
           (mkTagged (samplePost 1 "u1") (Some "Ann"))
           (mkTagged (samplePost 2 "u1") (Some "Ann"))
           (mkTagged (samplePost 3 "u1") (Some "Ann"))
           (mkTagged (samplePost 4 "u1") (Some "Ann"))
           (mkTagged (samplePost 5 "u1") (Some "Ann"))).
  - reflexivity.
  - vm_compute. reflexivity.
  - reflexivity.
  - vm_compute. reflexivity.
Defined.

(** C3, as stated, fails: with the users listing down, the scheduled refreshes
    overwrite the cached views of the earlier cycle instead of leaving them. *)
Lemma C3_refresh_overwrites_cache :
  users_of downUpstream = UsersFail ∧
  userCache (snd (apiService.updateUsersCache downUpstream warmStore)) ≠
    userCache warmStore ∧
  latestPostsCache (snd (apiService.updatePostsCache downUpstream warmStore)) ≠
    latestPostsCache warmStore ∧
  popularPostsCache (snd (apiService.updatePostsCache downUpstream warmStore)) ≠
    popularPostsCache warmStore.
Proof. vm_compute. repeat split; discriminate. Qed.

(** C3, amended. When the users listing fails during a scheduled refresh, the
    cycle yields an empty result ([fetchUsers] throws, [fetchAllPosts] gives
    [[]]), the refresh itself does not throw, and the corresponding cache
    entries are overwritten with the empty list: [topUsers] by
    [updateUsersCache], [latestPosts] and [popularPosts] by
    [updatePostsCache]. *)
Theorem C3_listing_failure_empties_cache (up : Upstream) (s : Store) :
  users_of up = UsersFail →
  apiService.fetchUsers up = Throw NetworkError ∧
  apiService.fetchAllPosts up = [] ∧
  fst (apiService.updateUsersCache up s) = Ok tt ∧
  userCache (snd (apiService.updateUsersCache up s)) = Some [] ∧
  fst (apiService.updatePostsCache up s) = Ok tt ∧
  latestPostsCache (snd (apiService.updatePostsCache up s)) = Some [] ∧
  popularPostsCache (snd (apiService.updatePostsCache up s)) = Some [].
Proof.
  intros Hup.
  assert (Hfetch : apiService.fetchUsers up = Throw NetworkError).
  { unfold apiService.fetchUsers. by rewrite Hup. }
  assert (Hall : apiService.fetchAllPosts up = []).
  { unfold apiService.fetchAllPosts. by rewrite Hfetch. }
  split_and!; [done..| | | | |].
  - unfold apiService.updateUsersCache, userCache_set. run_M. by rewrite Hfetch.
  - unfold apiService.updateUsersCache, userCache_set. run_M. by rewrite Hfetch.
  - unfold apiService.updatePostsCache. run_M. by rewrite Hall.
  - unfold apiService.updatePostsCache. run_M. by rewrite Hall.
  - unfold apiService.updatePostsCache. run_M. by rewrite Hall.
Qed.

(** The listing is down and the caches hold an earlier cycle. *)
Lemma C3_listing_failure_empties_cache_witness :
  userCache (snd (apiService.updateUsersCache downUpstream warmStore)) =
    Some [] ∧
  latestPostsCache (snd (apiService.updatePostsCache downUpstream warmStore)) =
    Some [] ∧
  popularPostsCache (snd (apiService.updatePostsCache downUpstream warmStore)) =
    Some [].
Proof.
  destruct (C3_listing_failure_empties_cache downUpstream warmStore)
    as (_ & _ & _ & H1 & _ & H2 & H3).
  - reflexivity.
  - exact (conj H1 (conj H2 H3)).
Defined.

(** C4. When the service has fetched, in any order, eight posts with the
    identifiers 1 to 8, [getLatestPosts] (on a cache miss) returns
    min(5, 8) = 5 of them, those with the identifiers 8, 7, 6, 5 and 4, in
    that order. *)
Theorem C4_latest_five (up : Upstream) (s : Store) :
  latestPostsCache s = None →
  tagged_id <$> apiService.fetchAllPosts up ≡ₚ [1; 2; 3; 4; 5; 6; 7; 8] →
  ∃ latestPosts,
    fst (apiService.getLatestPosts up s) = Ok latestPosts ∧
    length latestPosts = 5%nat ∧
    tagged_id <$> latestPosts = [8; 7; 6; 5; 4] ∧
    latestPosts ⊆+ apiService.fetchAllPosts up.
Proof.
  intros Hmiss Hids.
  destruct (latestOf_spec (apiService.fetchAllPosts up))
    as (latestPosts & rest & Heq & Hsorted & Hsplit).
  assert (Hscores : tagged_id <$> latestPosts = [8; 7; 6; 5; 4]).
  { rewrite (top_split_bruteForce _ _ _ _ _ Hsplit Hsorted).
    unfold bruteForceTop.
    replace (merge_sort desc (tagged_id <$> apiService.fetchAllPosts up))
      with [8; 7; 6; 5; 4; 3; 2; 1]; [done|].
    apply (Sorted_unique desc).
    - repeat constructor; unfold desc; lia.
    - apply Sorted_merge_sort, _.
    - rewrite merge_sort_Permutation, Hids.
      symmetry. apply (Permutation_rev [1; 2; 3; 4; 5; 6; 7; 8]). }
  exists latestPosts. split_and!; [|by rewrite <- (length_fmap tagged_id), Hscores|done|].
  - unfold apiService.getLatestPosts, latestPostsCache_get. run_M.
    rewrite Hmiss. run_M. by rewrite Heq.
  - destruct Hsplit as (Hperm & _). rewrite Hperm.
    by apply submseteq_inserts_r.
Qed.

(** Two users whose posts interleave the identifiers 1 to 8. *)
Lemma C4_latest_five_witness :
  ∃ latestPosts,
    fst (apiService.getLatestPosts eightUpstream (emptyStore 0)) =
      Ok latestPosts ∧
    tagged_id <$> latestPosts = [8; 7; 6; 5; 4].
Proof.
  destruct (C4_latest_five eightUpstream (emptyStore 0))
    as (latestPosts & Heq & _ & Hids & _).
  - reflexivity.
  - rewrite <- (merge_sort_Permutation Z.le). vm_compute. reflexivity.
  - exists latestPosts. split; [exact Heq|exact Hids].
Defined.

(** C5, as stated, fails: with six users listed, the request for the posts
    of [u3] failing and one post fetched for each of the others, [getTopUsers]
    returns the five users with a post; [u3], with post count 0, is the one
    the heap evicts, and is not in the view. *)
Lemma C5_failed_user_evicted :
  users_of sixUpstream =
    UsersObject [("u1", "Ann"); ("u2", "Bob"); ("u3", "Cid"); ("u4", "Dee");
                 ("u5", "Eve"); ("u6", "Fay")] ∧
  posts_of sixUpstream "u3" = None ∧
  tagged_id <$> apiService.fetchAllPosts sixUpstream = [1; 2; 4; 5; 6] ∧
  ∃ topUsers,
    fst (apiService.getTopUsers sixUpstream (emptyStore 0)) = Ok topUsers ∧
    user_id <$> topUsers = ["u2"; "u1"; "u4"; "u5"; "u6"] ∧
    postCount <$> topUsers = [1; 1; 1; 1; 1] ∧
    mkUser "u3" "Cid" 0 ∉ topUsers.
Proof.
  split_and!; [reflexivity..|].
  eexists. split_and!; [vm_compute; reflexivity..|].
  intros Hin. apply (list_elem_of_fmap_2 user_id) in Hin.
  vm_compute in Hin.
  repeat (apply elem_of_cons in Hin as [Hin|Hin]; [discriminate Hin|]).
  by apply elem_of_nil in Hin.
Qed.

(** C5, amended. Whatever the upstream lists, a failed request for the posts
    of a user does not abort the aggregation: [fetchAllPosts] returns the
    posts of the users whose request succeeded, in listing order, and every
    post in it is a post that the upstream returned for some user;
    [getTopUsers] (on a cache miss) returns, and when at most five users are
    listed (as with [u1] to [u4]) its result includes every user whose request
    failed, with post count 0. *)
Theorem C5_partial_failure (up : Upstream) (entries : list (string * string))
    (s : Store) :
  users_of up = UsersObject entries → userCache s = None →
  apiService.fetchAllPosts up = postsOfReachable up entries ∧
  (∀ post, post ∈ apiService.fetchAllPosts up →
     ∃ userId posts, userId ∈ map fst entries ∧
       posts_of up userId = Some posts ∧ tagged_post post ∈ posts) ∧
  ∃ topUsers,
    fst (apiService.getTopUsers up s) = Ok topUsers ∧
    ((length entries ≤ 5)%nat →
     ∀ userId name, (userId, name) ∈ entries → posts_of up userId = None →
       mkUser userId name 0 ∈ topUsers).
Proof.
  intros Hup Hmiss. split_and!.
  - rewrite (fetchAllPosts_listing up entries Hup). unfold postsOfReachable.
    symmetry. apply concat_map_filter. apply tagPosts_failed.
  - rewrite (fetchAllPosts_listing up entries Hup).
    intros post Hin. apply list_elem_of_In, in_concat in Hin as (l & Hl & Hp).
    apply in_map_iff in Hl as (userId & <- & Hid).
    unfold apiService.tagPosts, apiService.fetchUserPosts in Hp.
    destruct (posts_of up userId) as [posts|] eqn:Hposts; [|done].
    apply in_map_iff in Hp as (raw & <- & Hraw).
    exists userId, posts. split_and!; [by apply list_elem_of_In|done|].
    by apply list_elem_of_In.
  - destruct (getTopUsers_miss up s entries Hmiss Hup)
      as (topUsers & rest & _ & _ & Hsplit & Heq & _).
    exists topUsers. split; [done|]. intros Hlen userId name Hin Hfail.
    rewrite (top_split_all _ _ _ _ _ Hsplit).
    + unfold apiService.userWithPosts.
      apply list_elem_of_fmap. exists (userId, name). split; [|done].
      unfold apiService.fetchUserPosts. by rewrite Hfail.
    + unfold apiService.userWithPosts. by rewrite length_map.
Qed.

(** Four users; the posts of [u3] cannot be fetched. *)
Lemma C5_partial_failure_witness :
  tagged_id <$> apiService.fetchAllPosts partialUpstream = [1; 2; 3; 4] ∧
  ∃ topUsers,
    fst (apiService.getTopUsers partialUpstream (emptyStore 0)) = Ok topUsers ∧
    mkUser "u3" "Cid" 0 ∈ topUsers.
Proof.
  destruct (C5_partial_failure partialUpstream
              [("u1", "Ann"); ("u2", "Bob"); ("u3", "Cid"); ("u4", "Dee")]
              (emptyStore 0))
    as (Hposts & _ & topUsers & Heq & Hin).
  - reflexivity.
  - reflexivity.
  - split.
    + rewrite Hposts. vm_compute. reflexivity.
    + exists topUsers. split; [exact Heq|].
      apply Hin; [cbn; lia| |reflexivity].
      apply elem_of_cons. right. apply elem_of_cons. right.
      apply elem_of_cons. left. reflexivity.
Defined.

(** C6. In every state that the service can reach (from empty caches, by
    requests, scheduled refreshes and the passing of time, against any
    upstream), [getTopUsers] returns a list whenever the upstream lists its
    users, the list it returns has at most five users and is in descending
    order of post count, and [GET /users] answers either 200 with such a list
    or 500 with the error body. *)
Theorem C6_top_users_ranked (cfg : Config) (s : Store) (up : Upstream) :
  reachable cfg s →
  (∀ entries, users_of up = UsersObject entries →
     ∃ topUsers, fst (apiService.getTopUsers up s) = Ok topUsers) ∧
  (∀ topUsers, fst (apiService.getTopUsers up s) = Ok topUsers →
     (length topUsers ≤ 5)%nat ∧
     StronglySorted (descBy postCount) topUsers) ∧
  ((∃ users, fst (app.get_users cfg up s) = mkResponse 200 (JsonUsers users) ∧
             (length users ≤ 5)%nat ∧
             StronglySorted (descBy postCount) users) ∨
   fst (app.get_users cfg up s) =
     mkResponse 500 (JsonError "Internal Server Error")).
Proof.
  intros Hs%reachable_ranked. split_and!.
  - intros entries. apply getTopUsers_returns.
  - by apply getTopUsers_ranked.
  - by apply get_users_ranked.
Qed.

(** The state after one scheduled refresh of the users. *)
Lemma C6_top_users_ranked_witness :
  ∃ users,
    fst (app.get_users sampleConfig partialUpstream
           (run sampleConfig (RefreshUsers partialUpstream) (emptyStore 0))) =
      mkResponse 200 (JsonUsers users) ∧
    (length users ≤ 5)%nat ∧ StronglySorted (descBy postCount) users.
Proof.
  destruct (C6_top_users_ranked sampleConfig
              (run sampleConfig (RefreshUsers partialUpstream) (emptyStore 0))
              partialUpstream) as (_ & _ & [Hok|Herr]).
  - apply reachable_step, reachable_init.
  - exact Hok.
  - vm_compute in Herr. discriminate Herr.
Defined.

(** C7. Two scheduled refreshes of the posts in succession, against the same
    upstream, write the same lists: after the second run the [latestPosts] and
    [popularPosts] entries hold exactly what the first run wrote. *)
Theorem C7_refresh_idempotent (up : Upstream) (s : Store) :
  let s1 := snd (apiService.updatePostsCache up s) in
  let s2 := snd (apiService.updatePostsCache up s1) in
  ∃ latestPosts popularPosts,
    latestPostsCache s1 = Some latestPosts ∧
    popularPostsCache s1 = Some popularPosts ∧
    latestPostsCache s2 = Some latestPosts ∧
    popularPostsCache s2 = Some popularPosts.
Proof.
  intros s1 s2.
  destruct (updatePostsCache_writes up) as (latestPosts & popularPosts & Hrun).
  exists latestPosts, popularPosts.
  destruct (Hrun s) as (_ & H1 & H2). destruct (Hrun s1) as (_ & H3 & H4).
  done.
Qed.

(** C8, as stated, fails: a [type] parameter that is present but empty
    ([GET /posts?type=]) is neither [latest] nor [popular], yet it is served
    as [latest]: the answer is 200 and the caches are read and written. *)
Lemma C8_empty_type_served_as_latest :
  strict_eq (QString "") "latest" = false ∧
  strict_eq (QString "") "popular" = false ∧
  status (fst (app.get_posts sampleConfig eightUpstream (Some (QString ""))
                 (emptyStore 0))) = 200 ∧
  trace (snd (app.get_posts sampleConfig eightUpstream (Some (QString ""))
                (emptyStore 0))) =
    [CacheGet "postsCache" "latest_posts";
     CacheGet "latestPostsCache" "latestPosts";
     CacheSet "latestPostsCache" "latestPosts";
     CacheSet "postsCache" "latest_posts"].
Proof. vm_compute. repeat split. Qed.

(** C8, amended. A [GET /posts] request whose [type] parameter is present,
    not empty, and neither [latest] nor [popular] is answered with 400 and the
    error body, and the store is left exactly as it was: no cache entry is
    read or written. *)
Theorem C8_invalid_type_rejected (cfg : Config) (up : Upstream)
    (v : QueryValue) (s : Store) :
  truthy v = true →
  strict_eq v "latest" = false → strict_eq v "popular" = false →
  app.get_posts cfg up (Some v) s =
    (mkResponse 400
       (JsonError
          ("Invalid type parameter. Use " +:+ dquote +:+ "latest" +:+ dquote
           +:+ " or " +:+ dquote +:+ "popular" +:+ dquote +:+ ".")),
     s).
Proof.
  intros Htruthy Hlatest Hpopular.
  unfold app.get_posts, app.guarded. rewrite Htruthy, Hlatest, Hpopular.
  by run_M.
Qed.

(** [GET /posts?type=oldest] *)
Lemma C8_invalid_type_rejected_witness :
  status (fst (app.get_posts sampleConfig eightUpstream
                 (Some (QString "oldest")) (emptyStore 0))) = 400 ∧
  snd (app.get_posts sampleConfig eightUpstream
         (Some (QString "oldest")) (emptyStore 0)) = emptyStore 0.
Proof.
  rewrite (C8_invalid_type_rejected sampleConfig eightUpstream
             (QString "oldest") (emptyStore 0));
    [split; reflexivity|reflexivity..].
Defined.

(** C9. When the upstream lists zero users and no cache holds an earlier view
    with entries in it, every aggregation returns the empty list and none
    throws: [fetchAllPosts] gives [[]], and [getTopUsers], [getLatestPosts]
    and [getPopularPosts] return [[]]; the endpoints answer 200 with an empty
    array. *)
Theorem C9_zero_users (cfg : Config) (up : Upstream) (s : Store) :
  users_of up = UsersObject [] → no_views s →
  apiService.fetchAllPosts up = [] ∧
  fst (apiService.getTopUsers up s) = Ok [] ∧
  fst (apiService.getLatestPosts up s) = Ok [] ∧
  fst (apiService.getPopularPosts up s) = Ok [] ∧
  fst (app.get_users cfg up s) = mkResponse 200 (JsonUsers []) ∧
  fst (app.get_posts cfg up (Some (QString "latest")) s) =
    mkResponse 200 (JsonLatest []) ∧
  fst (app.get_posts cfg up (Some (QString "popular")) s) =
    mkResponse 200 (JsonPopular []).
Proof.
  intros Hup Hs. pose proof Hs as (_ & _ & _ & Hu & Hl & Hp).
  split_and!.
  - by apply fetchAllPosts_zero.
  - by apply getTopUsers_zero.
  - by apply getLatestPosts_zero.
  - by apply getPopularPosts_zero.
  - unfold app.get_users, app.guarded, cacheService.getTopUsers,
      cacheService.setTopUsers, app.json. run_M.
    destruct (ttl_get _ _) as [l|] eqn:Hget; run_M.
    + apply ttl_get_Some in Hget as [t Ht]. by rewrite (Hu l t).
    + pose proof (getTopUsers_zero up
        (logged (CacheGet "usersCache" "topUsers") s) Hup Hs) as Hres.
      destruct (apiService.getTopUsers up _) as [[r|e] s'];
        cbn in Hres; [|done]. injection Hres as ->. by run_M.
  - unfold app.get_posts, app.guarded, cacheService.getLatestPosts,
      cacheService.setLatestPosts, app.json.
    change (truthy (QString "latest")) with true. cbv beta iota zeta.
    change (strict_eq (QString "latest") "latest") with true. run_M.
    destruct (ttl_get _ _) as [l|] eqn:Hget; run_M.
    + apply ttl_get_Some in Hget as [t Ht]. by rewrite (Hl l t).
    + pose proof (getLatestPosts_zero up
        (logged (CacheGet "postsCache" "latest_posts") s) Hup Hs) as Hres.
      destruct (apiService.getLatestPosts up _) as [[r|e] s'];
        cbn in Hres; [|done]. injection Hres as ->. by run_M.
  - unfold app.get_posts, app.guarded, cacheService.getPopularPosts,
      cacheService.setPopularPosts, app.json.
    change (truthy (QString "popular")) with true. cbv beta iota zeta.
    change (strict_eq (QString "popular") "latest") with false.
    change (strict_eq (QString "popular") "popular") with true. run_M.
    destruct (ttl_get _ _) as [l|] eqn:Hget; run_M.
    + apply ttl_get_Some in Hget as [t Ht]. by rewrite (Hp l t).
    + pose proof (getPopularPosts_zero up
        (logged (CacheGet "postsCache" "popular_posts") s) Hup Hs) as Hres.
      destruct (apiService.getPopularPosts up _) as [[r|e] s'];
        cbn in Hres; [|done]. injection Hres as ->. by run_M.
Qed.

(** The upstream with no user, on empty caches. *)
Lemma C9_zero_users_witness :
  apiService.fetchAllPosts emptyUpstream = [] ∧
  fst (apiService.getTopUsers emptyUpstream (emptyStore 0)) = Ok [] ∧
  fst (apiService.getLatestPosts emptyUpstream (emptyStore 0)) = Ok [] ∧
  fst (apiService.getPopularPosts emptyUpstream (emptyStore 0)) = Ok [].
Proof.
  destruct (C9_zero_users sampleConfig emptyUpstream (emptyStore 0))
    as (H1 & H2 & H3 & H4 & _).
  - reflexivity.
  - repeat split; intros; discriminate.
  - exact (conj H1 (conj H2 (conj H3 H4))).
Defined.

(** C10. Extraction is total. On an empty heap [MinHeap.extractMin],
    [MaxHeap.extractMax] and [MaxHeap.peek] give the null sentinel; on any
    array that is not empty, heap-ordered or not, the two extractions return
    its first element without throwing (no index outside the array is touched
    and the bound of the embedding is not reached) and leave the other
    elements in the heap, and [peek] returns the first element. *)
Theorem C10_extraction_total {A : Type} (keyFunction : A → Z) :
  MinHeap.extractMin [] = Ok (None, []) ∧
  MaxHeap.extractMax keyFunction [] = Ok (None, []) ∧
  MaxHeap.peek (@nil A) = None ∧
  (∀ (user : User) (heap : list User), ∃ heap',
      MinHeap.extractMin (user :: heap) = Ok (Some user, heap') ∧
      user :: heap' ≡ₚ user :: heap) ∧
  (∀ (item : A) (heap : list A), ∃ heap',
      MaxHeap.extractMax keyFunction (item :: heap) = Ok (Some item, heap') ∧
      item :: heap' ≡ₚ item :: heap) ∧
  (∀ (item : A) (heap : list A), MaxHeap.peek (item :: heap) = Some item).
Proof.
  split_and!; try done.
  - intros user heap. rewrite MinHeap_extractMin_eq.
    destruct (extractMax_cons negCount user heap) as (heap' & ? & ? & _).
    by exists heap'.
  - intros item heap.
    destruct (extractMax_cons keyFunction item heap) as (heap' & ? & ? & _).
    by exists heap'.
Qed.

(** * Further properties of the heaps *)

Lemma min_heap_ok_negCount heap : min_heap_ok heap ↔ heap_ok negCount heap.
Proof.
  unfold min_heap_ok, heap_ok, ordered, negCount. split.
  - intros H c Hc x y Hx Hy. specialize (H c x y Hc Hx Hy). lia.
  - intros H c x y Hc Hx Hy. specialize (H c Hc x y Hx Hy). lia.
Qed.

(** X1. [MaxHeap.insert] never throws, adds exactly the item to the array,
    and keeps the max-heap order of an array that had it. *)
Theorem X1_MaxHeap_insert_keeps_order {A : Type} (keyFunction : A → Z)
    (heap : list A) (item : A) :
  ∃ heap',
    MaxHeap.insert keyFunction heap item = Ok heap' ∧
    heap' ≡ₚ item :: heap ∧
    (heap_ok keyFunction heap → heap_ok keyFunction heap').
Proof.
  destruct (insert_spec keyFunction heap item) as (heap' & Heq & Hperm & Hok).
  exists heap'. split_and!; [exact Heq|exact Hperm|exact Hok].
Qed.

(** Inserting 9 into the heap-ordered array 7, 3, 5. *)
Lemma X1_MaxHeap_insert_keeps_order_witness :
  ∃ heap',
    MaxHeap.insert (λ z : Z, z) [7; 3; 5] 9 = Ok heap' ∧
    heap_ok (λ z : Z, z) heap'.
Proof.
  destruct (X1_MaxHeap_insert_keeps_order (λ z : Z, z) [7; 3; 5] 9)
    as (heap' & Heq & _ & Hok).
  exists heap'. split; [exact Heq|]. apply Hok.
  intros c Hc x y Hx Hy. pose proof (zget_Some_bounds _ _ _ Hy) as Hb.
  unfold size in Hb. cbn in Hb.
  assert (c = 1 ∨ c = 2) as [-> | ->] by lia;
    vm_compute in Hx, Hy; injection Hx as <-; injection Hy as <-; lia.
Defined.

(** X2. On a heap-ordered array that is not empty, [MaxHeap.extractMax]
    returns the item that [peek] shows, whose key is the largest in the heap,
    removes exactly that item, and leaves the array heap-ordered. *)
Theorem X2_MaxHeap_extractMax_largest {A : Type} (keyFunction : A → Z)
    (heap : list A) :
  heap_ok keyFunction heap → heap ≠ [] →
  ∃ max heap',
    MaxHeap.extractMax keyFunction heap = Ok (Some max, heap') ∧
    MaxHeap.peek heap = Some max ∧
    (∀ item, item ∈ heap → keyFunction item ≤ keyFunction max) ∧
    max :: heap' ≡ₚ heap ∧
    heap_ok keyFunction heap'.
Proof.
  intros Hok Hne.
  destruct (extractMax_step keyFunction heap Hok Hne)
    as (m & heap' & Heq & Hhd & Hperm & Hok' & Hmax).
  exists m, heap'. by rewrite peek_head.
Qed.

Lemma heap_ok_9735 : heap_ok (λ z : Z, z) [9; 7; 5; 3].
Proof.
  intros c Hc x y Hx Hy. pose proof (zget_Some_bounds _ _ _ Hy) as Hb.
  unfold size in Hb. cbn in Hb.
  assert (c = 1 ∨ c = 2 ∨ c = 3) as [-> | [-> | ->]] by lia;
    vm_compute in Hx, Hy; injection Hx as <-; injection Hy as <-; lia.
Qed.

(** Extracting from the heap-ordered array 9, 7, 5, 3. *)
Lemma X2_MaxHeap_extractMax_largest_witness :
  ∃ heap',
    MaxHeap.extractMax (λ z : Z, z) [9; 7; 5; 3] = Ok (Some 9, heap') ∧
    heap_ok (λ z : Z, z) heap'.
Proof.
  destruct (X2_MaxHeap_extractMax_largest (λ z : Z, z) [9; 7; 5; 3])
    as (m & heap' & Heq & Hpeek & _ & _ & Hok).
  - exact heap_ok_9735.
  - discriminate.
  - exists heap'. injection Hpeek as <-. split; [exact Heq|exact Hok].
Defined.

(** X3. [MinHeap.insert] and [MinHeap.extractMin] keep the min-heap order on
    the post count; on a heap-ordered array that is not empty, [extractMin]
    returns a user with the fewest posts and removes exactly that user. *)
Theorem X3_MinHeap_order (heap : list User) (user : User) :
  min_heap_ok heap →
  (∃ heap',
     MinHeap.insert heap user = Ok heap' ∧ heap' ≡ₚ user :: heap ∧
     min_heap_ok heap') ∧
  (heap ≠ [] →
   ∃ min heap',
     MinHeap.extractMin heap = Ok (Some min, heap') ∧
     (∀ other, other ∈ heap → postCount min ≤ postCount other) ∧
     min :: heap' ≡ₚ heap ∧
     min_heap_ok heap').
Proof.
  intros Hok%min_heap_ok_negCount. split.
  - rewrite MinHeap_insert_eq.
    destruct (insert_spec negCount heap user) as (heap' & Heq & Hperm & Hok').
    exists heap'. split_and!; [done..|]. by apply min_heap_ok_negCount, Hok'.
  - intros Hne. rewrite MinHeap_extractMin_eq.
    destruct (extractMax_step negCount heap Hok Hne)
      as (m & heap' & Heq & _ & Hperm & Hok' & Hmax).
    exists m, heap'. split_and!; [done| |done|by apply min_heap_ok_negCount].
    intros other Hin%Hmax. unfold negCount in Hin. lia.
Qed.

(** A heap of one user. *)
Lemma X3_MinHeap_order_witness :
  ∃ heap',
    MinHeap.insert [mkUser "u1" "Ann" 4] (mkUser "u2" "Bob" 1) = Ok heap' ∧
    min_heap_ok heap'.
Proof.
  destruct (X3_MinHeap_order [mkUser "u1" "Ann" 4] (mkUser "u2" "Bob" 1))
    as [(heap' & Heq & _ & Hok) _].
  - intros c x y Hc Hx Hy. pose proof (zget_Some_bounds _ _ _ Hy) as Hb.
    unfold size in Hb. cbn in Hb. lia.
  - exists heap'. split; [exact Heq|exact Hok].
Defined.

(** * Further properties of the aggregations *)

(** X4. On a cache miss, [getLatestPosts] never throws, returns min(5, n) of
    the n fetched posts, in descending order of identifier, whose identifiers
    are the five largest of a brute-force descending sort, and stores exactly
    that list in [latestPostsCache]. *)
Theorem X4_getLatestPosts_top_five (up : Upstream) (s : Store) :
  latestPostsCache s = None →
  ∃ latestPosts,
    fst (apiService.getLatestPosts up s) = Ok latestPosts ∧
    latestPostsCache (snd (apiService.getLatestPosts up s)) = Some latestPosts ∧
    length latestPosts =
      Nat.min 5 (length (apiService.fetchAllPosts up)) ∧
    tagged_id <$> latestPosts =
      bruteForceTop 5 (tagged_id <$> apiService.fetchAllPosts up) ∧
    StronglySorted (descBy tagged_id) latestPosts ∧
    latestPosts ⊆+ apiService.fetchAllPosts up.
Proof.
  intros Hmiss.
  destruct (latestOf_spec (apiService.fetchAllPosts up))
    as (latestPosts & rest & Heq & Hsorted & Hsplit).
  exists latestPosts.
  assert (Hrun : apiService.getLatestPosts up s =
    (Ok latestPosts,
     logged (CacheSet "latestPostsCache" "latestPosts")
       (mkStore (userCache s) (Some latestPosts) (popularPostsCache s)
          (usersCache s) (postsCache_latest s) (postsCache_popular s)
          (clock s) (trace s ++ [CacheGet "latestPostsCache" "latestPosts"])))).
  { unfold apiService.getLatestPosts, latestPostsCache_get,
      latestPostsCache_set. run_M. rewrite Hmiss. run_M. by rewrite Heq. }
  rewrite Hrun. split_and!; [done|done| | |done|].
  - by destruct Hsplit as (_ & _ & ->).
  - by apply top_split_bruteForce with rest.
  - destruct Hsplit as (Hperm & _). rewrite Hperm.
    by apply submseteq_inserts_r.
Qed.

(** The posts 1 to 8 of two users, on empty caches. *)
Lemma X4_getLatestPosts_top_five_witness :
  ∃ latestPosts,
    fst (apiService.getLatestPosts eightUpstream (emptyStore 0)) =
      Ok latestPosts ∧
    length latestPosts = 5%nat.
Proof.
  destruct (X4_getLatestPosts_top_five eightUpstream (emptyStore 0))
    as (latestPosts & Heq & _ & Hlen & _).
  - reflexivity.
  - exists latestPosts. split; [exact Heq|]. rewrite Hlen. reflexivity.
Defined.

(** X5. On a cache miss, when some post was fetched and every comments
    response carries its list, [getPopularPosts] returns exactly the posts
    whose comment count is the largest one (all of them, none other), in
    descending order of identifier, and stores that list in
    [popularPostsCache]. *)
Theorem X5_getPopularPosts_all_ties (up : Upstream) (s : Store) :
  popularPostsCache s = None →
  apiService.fetchAllPosts up ≠ [] →
  (∀ post, post ∈ apiService.fetchAllPosts up →
     apiService.fetchPostComments up (tagged_id post) ≠ None) →
  ∃ result maxComments,
    fst (apiService.getPopularPosts up s) = Ok result ∧
    popularPostsCache (snd (apiService.getPopularPosts up s)) = Some result ∧
    (∀ post, post ∈ apiService.fetchAllPosts up →
       commentCount (rankPost up post) ≤ maxComments) ∧
    result ≠ [] ∧
    result ≡ₚ filter (λ post, commentCount post = maxComments)
                (rankPost up <$> apiService.fetchAllPosts up) ∧
    StronglySorted (descBy ranked_id) result.
Proof.
  intros Hmiss Hne Hcomments.
  destruct (commentHeap_spec up (apiService.fetchAllPosts up) Hcomments)
    as (heap & Hheap & Hperm & Hok).
  assert (Hheap_ne : heap ≠ []).
  { intros ->. apply Permutation_length in Hperm. rewrite length_fmap in Hperm.
    destruct (apiService.fetchAllPosts up); [done|]. cbn in Hperm. lia. }
  destruct (mostCommented_spec heap Hok Hheap_ne)
    as (result & maxComments & Hres & Hmax & (y & Hy & Hymax) & Hfilter & Hsorted).
  exists result, maxComments.
  assert (Hrun : apiService.getPopularPosts up s =
    (Ok result,
     logged (CacheSet "popularPostsCache" "popularPosts")
       (mkStore (userCache s) (latestPostsCache s) (Some result)
          (usersCache s) (postsCache_latest s) (postsCache_popular s)
          (clock s)
          (trace s ++ [CacheGet "popularPostsCache" "popularPosts"])))).
  { unfold apiService.getPopularPosts, popularPostsCache_get,
      popularPostsCache_set. run_M. rewrite Hmiss. run_M. rewrite Hheap. run_M.
    destruct (Z.eqb_spec (size heap) 0) as [Hz|_].
    { destruct heap; [done|]. unfold size in Hz. cbn in Hz. lia. }
    run_M. by rewrite Hres. }
  rewrite Hrun. split_and!; [done|done| | | |done].
  - intros post Hin. apply Hmax. rewrite Hperm. by apply list_elem_of_fmap_2.
  - intros ->. rewrite Hperm in Hy.
    assert (Hyf : y ∈ filter (λ post, commentCount post = maxComments)
                      (rankPost up <$> apiService.fetchAllPosts up)).
    { by apply list_elem_of_filter. }
    rewrite <- Hperm, <- Hfilter in Hyf. by apply elem_of_nil in Hyf.
  - by rewrite Hfilter, Hperm.
Qed.

(** The posts 1 to 5 with 3, 5, 5, 2 and 5 comments. *)
Lemma X5_getPopularPosts_all_ties_witness :
  ∃ result,
    fst (apiService.getPopularPosts tiedUpstream (emptyStore 0)) = Ok result ∧
    result ≠ [].
Proof.
  destruct (X5_getPopularPosts_all_ties tiedUpstream (emptyStore 0))
    as (result & maxComments & Heq & _ & _ & Hne & _).
  - reflexivity.
  - vm_compute. discriminate.
  - intros post Hin. vm_compute in Hin.
    repeat (apply elem_of_cons in Hin as [-> | Hin]);
      first [ vm_compute; discriminate | by apply elem_of_nil in Hin ].
  - exists result. split; [exact Heq|exact Hne].
Defined.

(** X6. On a cache miss with the users listed, [getTopUsers] returns users of
    the listing, each with the number of posts fetched for it (0 when that
    request failed), in descending order of that number; their post counts are
    the five largest of a brute-force sort of all the counts, and the list is
    stored in [userCache]. *)
Theorem X6_getTopUsers_counts_posts (up : Upstream)
    (entries : list (string * string)) (s : Store) :
  users_of up = UsersObject entries → userCache s = None →
  ∃ topUsers,
    fst (apiService.getTopUsers up s) = Ok topUsers ∧
    userCache (snd (apiService.getTopUsers up s)) = Some topUsers ∧
    postCount <$> topUsers =
      bruteForceTop 5
        ((λ entry, size (apiService.fetchUserPosts up (fst entry)))
           <$> entries) ∧
    StronglySorted (descBy postCount) topUsers ∧
    (∀ user, user ∈ topUsers →
       (user_id user, user_name user) ∈ entries ∧
       postCount user = size (apiService.fetchUserPosts up (user_id user))).
Proof.
  intros Hup Hmiss.
  destruct (getTopUsers_miss up s entries Hmiss Hup)
    as (topUsers & rest & _ & Hsorted & Hsplit & Heq & Hcache).
  exists topUsers. split_and!; [done..| |done|].
  - rewrite (top_split_bruteForce _ _ _ _ _ Hsplit Hsorted). f_equal.
    unfold apiService.userWithPosts. rewrite <- list_fmap_compose.
    apply list_fmap_ext. by intros i [id name] _.
  - intros user Hin. destruct Hsplit as (Hperm & _).
    assert (Hall : user ∈ apiService.userWithPosts up entries).
    { rewrite Hperm. apply elem_of_app. by left. }
    unfold apiService.userWithPosts in Hall.
    apply list_elem_of_fmap in Hall as ([id name] & -> & Hentry). by cbn.
Qed.

(** Four users; the posts of [u3] cannot be fetched. *)
Lemma X6_getTopUsers_counts_posts_witness :
  ∃ topUsers,
    fst (apiService.getTopUsers partialUpstream (emptyStore 0)) = Ok topUsers ∧
    postCount <$> topUsers = [2; 1; 1; 0].
Proof.
  destruct (X6_getTopUsers_counts_posts partialUpstream
              [("u1", "Ann"); ("u2", "Bob"); ("u3", "Cid"); ("u4", "Dee")]
              (emptyStore 0))
    as (topUsers & Heq & _ & Hscores & _).
  - reflexivity.
  - reflexivity.
  - exists topUsers. split; [exact Heq|]. rewrite Hscores. vm_compute.
    reflexivity.
Defined.

(** * Further properties of the refresh paths *)

Lemma updateUsersCache_run up s :
  ∃ topUsers,
    apiService.updateUsersCache up s =
      (Ok tt,
       logged (CacheSet "userCache" "topUsers")
         (mkStore (Some topUsers) (latestPostsCache s) (popularPostsCache s)
            (usersCache s) (postsCache_latest s) (postsCache_popular s)
            (clock s) (trace s))) ∧
    ranked_users topUsers ∧
    match users_of up with
    | UsersObject entries =>
        apiService.topUsersOf (apiService.userWithPosts up entries) =
          Ok topUsers
    | _ => topUsers = []
    end.
Proof.
  unfold apiService.updateUsersCache, apiService.fetchUsers, userCache_set.
  destruct (users_of up) as [| |entries].
  - exists []. run_M. split_and!; [done|apply ranked_users_nil|done].
  - exists []. run_M. split_and!; [done|apply ranked_users_nil|done].
  - destruct (topUsersOf_spec (apiService.userWithPosts up entries))
      as (topUsers & rest & Heq & Hsorted & Hsplit).
    exists topUsers. run_M.
    destruct (Z.eqb_spec (size (apiService.userWithPosts up entries)) 0)
      as [Hz|Hnz]; run_M.
    + assert (apiService.userWithPosts up entries = []) as Hnil.
      { destruct (apiService.userWithPosts up entries); [done|].
        unfold size in Hz. cbn in Hz. lia. }
      rewrite Hnil in Heq. injection Heq as <-.
      split_and!; [done|apply ranked_users_nil|by rewrite Hnil].
    + rewrite Heq. run_M.
      split_and!; [done|by apply top_split_ranked with
                          (apiService.userWithPosts up entries) rest|done].
Qed.

(** X7. [updateUsersCache] never throws and always leaves the [topUsers]
    entry of [userCache] set: to at most five users in descending order of
    post count whose counts are the five largest of the listing, or to the
    empty list when the listing fails or carries no [users] field. It touches
    none of the other five entries of the view caches. *)
Theorem X7_updateUsersCache_always_writes (up : Upstream) (s : Store) :
  fst (apiService.updateUsersCache up s) = Ok tt ∧
  ∃ topUsers,
    userCache (snd (apiService.updateUsersCache up s)) = Some topUsers ∧
    (length topUsers ≤ 5)%nat ∧
    StronglySorted (descBy postCount) topUsers ∧
    (∀ entries, users_of up = UsersObject entries →
       postCount <$> topUsers =
         bruteForceTop 5 (postCount <$> apiService.userWithPosts up entries)) ∧
    (users_of up = UsersFail ∨ users_of up = UsersMissing → topUsers = []) ∧
    latestPostsCache (snd (apiService.updateUsersCache up s)) =
      latestPostsCache s ∧
    popularPostsCache (snd (apiService.updateUsersCache up s)) =
      popularPostsCache s ∧
    usersCache (snd (apiService.updateUsersCache up s)) = usersCache s ∧
    postsCache_latest (snd (apiService.updateUsersCache up s)) =
      postsCache_latest s ∧
    postsCache_popular (snd (apiService.updateUsersCache up s)) =
      postsCache_popular s.
Proof.
  destruct (updateUsersCache_run up s) as (topUsers & -> & [Hlen Hsorted] & Hup).
  split; [done|]. exists topUsers. split_and!; try done.
  - intros entries Hentries. rewrite Hentries in Hup.
    destruct (topUsersOf_spec (apiService.userWithPosts up entries))
      as (topUsers' & rest & Heq & Hsorted' & Hsplit).
    rewrite Heq in Hup. injection Hup as ->.
    by apply top_split_bruteForce with rest.
  - intros [Hfail|Hmissing]; [rewrite Hfail in Hup|rewrite Hmissing in Hup];
      done.
Qed.

Lemma getPopularPosts_cold up s :
  popularPostsCache s = None →
  (∀ post, post ∈ apiService.fetchAllPosts up →
     apiService.fetchPostComments up (tagged_id post) ≠ None) →
  ∃ heap result,
    for_of (apiService.fetchAllPosts up)
      (λ commentHeap post,
         MaxHeap.insert commentCount commentHeap (rankPost up post)) [] =
      Ok heap ∧
    (if size heap =? 0 then Ok [] else apiService.mostCommented heap) =
      Ok result ∧
    fst (apiService.getPopularPosts up s) = Ok result.
Proof.
  intros Hmiss Hcomments.
  destruct (for_of_insert commentCount
              (rankPost up <$> apiService.fetchAllPosts up) [])
    as (heap & Hheap & Hperm & Hok).
  rewrite <- (for_of_fmap (rankPost up)) in Hheap.
  specialize (Hok (heap_ok_nil _)).
  assert (Hres : ∃ result,
    (if size heap =? 0 then Ok [] else apiService.mostCommented heap) =
      Ok result).
  { destruct (Z.eqb_spec (size heap) 0) as [Hz|Hnz]; [by exists []|].
    destruct (mostCommented_spec heap Hok) as (result & _ & Hres & _).
    - intros ->. by apply Hnz.
    - by exists result. }
  destruct Hres as [result Hres]. exists heap, result.
  split_and!; [done..|].
  unfold apiService.getPopularPosts, popularPostsCache_get,
    popularPostsCache_set. run_M. rewrite Hmiss. run_M.
  rewrite (for_of_ext _
    (λ commentHeap post,
       MaxHeap.insert commentCount commentHeap (rankPost up post))).
  - rewrite Hheap. run_M. destruct (size heap =? 0); run_M.
    + exact Hres.
    + by rewrite Hres.
  - intros b p Hp. unfold rankPost.
    destruct (apiService.fetchPostComments up (tagged_id p)) eqn:Hc; [done|].
    by apply Hcomments in Hp.
Qed.

Lemma updatePostsCache_popular up s heap :
  for_of (apiService.fetchAllPosts up)
    (λ commentHeap post,
       MaxHeap.insert commentCount commentHeap (rankPost up post)) [] =
    Ok heap →
  ∀ result,
    (if size heap =? 0 then Ok [] else apiService.mostCommented heap) =
      Ok result →
    popularPostsCache (snd (apiService.updatePostsCache up s)) = Some result.
Proof.
  intros Hheap result Hres.
  destruct (latestOf_spec (apiService.fetchAllPosts up))
    as (latestPosts & rest & Hlatest & _ & _).
  unfold apiService.updatePostsCache, latestPostsCache_set,
    popularPostsCache_set. run_M.
  destruct (Z.eqb_spec (size (apiService.fetchAllPosts up)) 0) as [Hz|Hnz];
    run_M.
  - assert (apiService.fetchAllPosts up = []) as Hnil.
    { destruct (apiService.fetchAllPosts up); [done|].
      unfold size in Hz. cbn in Hz. lia. }
    rewrite Hnil in Hheap. injection Hheap as <-.
    change (Ok [] = Ok result) in Hres. injection Hres as <-. reflexivity.
  - rewrite Hlatest. run_M.
    change (for_of (apiService.fetchAllPosts up) _ [])
      with (for_of (apiService.fetchAllPosts up)
              (λ b x, MaxHeap.insert commentCount b (rankPost up x)) []).
    rewrite Hheap. run_M. rewrite Z.gtb_ltb.
    destruct (Z.eqb_spec (size heap) 0) as [Hz|Hpos].
    + exfalso. destruct heap; [|unfold size in Hz; cbn in Hz; lia].
      destruct (apiService.fetchAllPosts up) as [|p l]; [done|].
      cbn [for_of] in Hheap.
      destruct (insert_spec commentCount [] (rankPost up p))
        as (h1 & Hins & Hp1 & _).
      rewrite Hins in Hheap. cbn [mbind outcome_bind] in Hheap.
      destruct (for_of_insert commentCount (rankPost up <$> l) h1)
        as (h2 & Hh2 & Hp2 & _).
      rewrite <- (for_of_fmap (rankPost up)) in Hh2.
      rewrite Hh2 in Hheap. assert (h2 = []) as -> by congruence.
      apply Permutation_length in Hp2, Hp1. rewrite length_app in Hp2.
      cbn in Hp1, Hp2. lia.
    + replace (0 <? size heap) with true
        by (symmetry; apply Z.ltb_lt; unfold size in *; lia).
      rewrite Hres. by run_M.
Qed.

(** X8. The scheduled refresh and the cold-start path compute the same views
    from the same upstream: what [getTopUsers] and [getLatestPosts] return on
    a cache miss is what [updateUsersCache] and [updatePostsCache] store, and
    so is what [getPopularPosts] returns, provided every comments response
    carries its list. *)
Theorem X8_refresh_matches_cold_start (up : Upstream) (s s0 : Store) :
  (userCache s0 = None →
   ∀ topUsers, fst (apiService.getTopUsers up s0) = Ok topUsers →
     userCache (snd (apiService.updateUsersCache up s)) = Some topUsers) ∧
  (latestPostsCache s0 = None →
   ∀ latestPosts, fst (apiService.getLatestPosts up s0) = Ok latestPosts →
     latestPostsCache (snd (apiService.updatePostsCache up s)) =
       Some latestPosts) ∧
  (popularPostsCache s0 = None →
   (∀ post, post ∈ apiService.fetchAllPosts up →
      apiService.fetchPostComments up (tagged_id post) ≠ None) →
   ∀ popularPosts, fst (apiService.getPopularPosts up s0) = Ok popularPosts →
     popularPostsCache (snd (apiService.updatePostsCache up s)) =
       Some popularPosts).
Proof.
  split_and!.
  - intros Hmiss topUsers Hget.
    destruct (updateUsersCache_run up s) as (written & -> & _ & Hup).
    cbn. f_equal.
    unfold apiService.getTopUsers, userCache_get, apiService.fetchUsers in Hget.
    revert Hget. run_M. rewrite Hmiss. run_M.
    destruct (users_of up) as [| |entries]; run_M; [done|done|].
    cbn [apiService.Object_entries]. rewrite Hup. run_M. by intros [= ->].
  - intros Hmiss latestPosts Hget.
    destruct (latestOf_spec (apiService.fetchAllPosts up))
      as (latest & rest & Hlatest & _ & _).
    assert (latest = latestPosts) as ->.
    { revert Hget. unfold apiService.getLatestPosts, latestPostsCache_get.
      run_M. rewrite Hmiss. run_M. rewrite Hlatest. run_M. by intros [= ->]. }
    unfold apiService.updatePostsCache, latestPostsCache_set,
      popularPostsCache_set. run_M.
    destruct (Z.eqb_spec (size (apiService.fetchAllPosts up)) 0) as [Hz|Hnz];
      run_M.
    + assert (apiService.fetchAllPosts up = []) as Hnil.
      { destruct (apiService.fetchAllPosts up); [done|].
        unfold size in Hz. cbn in Hz. lia. }
      rewrite Hnil in Hlatest. by injection Hlatest as <-.
    + rewrite Hlatest. run_M.
      repeat (inner_case; run_M); reflexivity.
  - intros Hmiss Hcomments popularPosts Hget.
    destruct (getPopularPosts_cold up s0 Hmiss Hcomments)
      as (heap & result & Hheap & Hres & Hrun).
    rewrite Hrun in Hget. injection Hget as <-.
    by apply (updatePostsCache_popular up s heap).
Qed.

(** The posts 1 to 5 with 3, 5, 5, 2 and 5 comments: the refresh stores the
    three posts that the cold-start path returns. *)
Lemma X8_refresh_matches_cold_start_witness :
  popularPostsCache
    (snd (apiService.updatePostsCache tiedUpstream (emptyStore 0))) =
    Some [mkRanked (mkTagged (samplePost 5 "u1") (Some "Ann")) 5;
          mkRanked (mkTagged (samplePost 3 "u1") (Some "Ann")) 5;
          mkRanked (mkTagged (samplePost 2 "u1") (Some "Ann")) 5].
Proof.
  destruct (X8_refresh_matches_cold_start tiedUpstream (emptyStore 0)
              (emptyStore 0)) as (_ & _ & Hpopular).
  apply Hpopular.
  - reflexivity.
  - intros post Hin. vm_compute in Hin.
    repeat (apply elem_of_cons in Hin as [-> | Hin]);
      first [ vm_compute; discriminate | by apply elem_of_nil in Hin ].
  - vm_compute. reflexivity.
Defined.

(** * Further properties of the handlers *)

Lemma same_caches_refl s : same_caches s s.
Proof. by repeat split. Qed.

(** X9. [GET /users] answers 200 or 500, and 500 exactly when both caches
    miss and the users listing fails or carries no [users] field; a request
    answered 500 writes none of the six entries of the view caches. *)
Theorem X9_get_users_500 (cfg : Config) (up : Upstream) (s : Store) :
  (status (fst (app.get_users cfg up s)) = 200 ∨
   status (fst (app.get_users cfg up s)) = 500) ∧
  (status (fst (app.get_users cfg up s)) = 500 ↔
   ttl_get (clock s) (usersCache s) = None ∧ userCache s = None ∧
   (users_of up = UsersFail ∨ users_of up = UsersMissing)) ∧
  (status (fst (app.get_users cfg up s)) = 500 →
   same_caches s (snd (app.get_users cfg up s))).
Proof.
  unfold app.get_users, app.guarded, cacheService.getTopUsers,
    cacheService.setTopUsers, app.json, apiService.getTopUsers,
    userCache_get, userCache_set, apiService.fetchUsers.
  run_M.
  destruct (ttl_get (clock s) (usersCache s)) as [cached|] eqn:Hget; run_M.
  { split_and!; [by left| |done]. split; [done|]. by intros (? & _). }
  cbn [userCache logged].
  destruct (userCache s) as [cached|] eqn:Hcache; run_M.
  { split_and!; [by left| |done]. split; [done|]. by intros (_ & ? & _). }
  destruct (users_of up) as [| |entries] eqn:Hup; run_M.
  - split_and!; [by right| |intros _; by repeat split].
    split; [|done]. intros _. split_and!; auto.
  - cbn [apiService.Object_entries]. run_M.
    split_and!; [by right| |intros _; by repeat split].
    split; [|done]. intros _. split_and!; auto.
  - cbn [apiService.Object_entries].
    destruct (topUsersOf_spec (apiService.userWithPosts up entries))
      as (topUsers & rest & -> & _ & _).
    run_M. split_and!; [by left| |done].
    split; [done|]. by intros (_ & _ & [?|?]).
Qed.

Lemma getLatestPosts_total up s :
  ∃ posts, fst (apiService.getLatestPosts up s) = Ok posts.
Proof.
  unfold apiService.getLatestPosts, latestPostsCache_get,
    latestPostsCache_set.
  run_M; repeat (inner_case; run_M); eauto.
Qed.

Lemma getPopularPosts_total up s :
  ∃ posts, fst (apiService.getPopularPosts up s) = Ok posts.
Proof.
  unfold apiService.getPopularPosts, popularPostsCache_get,
    popularPostsCache_set.
  run_M; repeat (inner_case; run_M); eauto.
Qed.

(** X10. [GET /posts] never answers 500: [getLatestPosts] and
    [getPopularPosts] catch every error and return a list, so the answer is
    200, or 400 exactly when the [type] parameter is present, not empty, and
    neither [latest] nor [popular]. *)
Theorem X10_get_posts_never_500 (cfg : Config) (up : Upstream)
    (query_type : option QueryValue) (s : Store) :
  (status (fst (app.get_posts cfg up query_type s)) = 200 ∨
   status (fst (app.get_posts cfg up query_type s)) = 400) ∧
  (status (fst (app.get_posts cfg up query_type s)) = 400 ↔
   invalid_type query_type).
Proof.
  unfold app.get_posts, app.guarded, cacheService.getLatestPosts,
    cacheService.getPopularPosts, cacheService.setLatestPosts,
    cacheService.setPopularPosts, app.json, invalid_type.
  set (type := match query_type with
               | Some v => if truthy v then v else QString "latest"
               | None => QString "latest"
               end).
  assert (Hvalid : strict_eq type "latest" = true ∨
                   strict_eq type "popular" = true →
    ¬ ∃ v, query_type = Some v ∧ truthy v = true ∧
           strict_eq v "latest" = false ∧ strict_eq v "popular" = false).
  { intros Hor (v & -> & Ht & Hl & Hp). unfold type in Hor.
    rewrite Ht in Hor. destruct Hor; congruence. }
  run_M.
  destruct (strict_eq type "latest") eqn:Hl;
    [|destruct (strict_eq type "popular") eqn:Hp]; run_M.
  - destruct (ttl_get _ _); run_M.
    + split; [by left|]. split; [done|]. intros H. by destruct Hvalid; auto.
    + destruct (getLatestPosts_total up
        (logged (CacheGet "postsCache" "latest_posts") s)) as [posts Hposts].
      destruct (apiService.getLatestPosts up _) as [[r|e] s']; [|done].
      run_M. split; [by left|]. split; [done|].
      intros H. by destruct Hvalid; auto.
  - destruct (ttl_get _ _); run_M.
    + split; [by left|]. split; [done|]. intros H. by destruct Hvalid; auto.
    + destruct (getPopularPosts_total up
        (logged (CacheGet "postsCache" "popular_posts") s)) as [posts Hposts].
      destruct (apiService.getPopularPosts up _) as [[r|e] s']; [|done].
      run_M. split; [by left|]. split; [done|].
      intros H. by destruct Hvalid; auto.
  - split; [by right|]. split; [intros _|done].
    unfold type in Hl, Hp. destruct query_type as [v|]; [|done].
    destruct (truthy v) eqn:Ht; [|done]. by exists v.
Qed.

Lemma for_of_comments_missing up (posts : list TaggedPost) :
  (∃ post, post ∈ posts ∧
     apiService.fetchPostComments up (tagged_id post) = None) →
  ∀ commentHeap,
    for_of posts
      (λ commentHeap post,
         match apiService.fetchPostComments up (tagged_id post) with
         | None => Throw TypeError
         | Some comments =>
             MaxHeap.insert commentCount commentHeap
               (mkRanked post (size comments))
         end) commentHeap = Throw TypeError.
Proof.
  induction posts as [|p posts IH]; intros (post & Hin & Hnone) commentHeap.
  { by apply elem_of_nil in Hin. }
  cbn [for_of].
  destruct (apiService.fetchPostComments up (tagged_id p)) as [comments|]
    eqn:Hp; [|done].
  destruct (insert_spec commentCount commentHeap (mkRanked p (size comments)))
    as (heap' & -> & _). cbn [mbind outcome_bind].
  apply IH. exists post. split; [|done].
  apply elem_of_cons in Hin as [->|Hin]; [congruence|done].
Qed.

(** X11. On a cache miss, when no post was fetched, or when the comments
    response of some fetched post carries no [comments] field,
    [getPopularPosts] returns the empty list and writes none of the six
    entries of the view caches. *)
Theorem X11_getPopularPosts_empty_uncached (up : Upstream) (s : Store) :
  popularPostsCache s = None →
  apiService.fetchAllPosts up = [] ∨
  (∃ post, post ∈ apiService.fetchAllPosts up ∧
     apiService.fetchPostComments up (tagged_id post) = None) →
  fst (apiService.getPopularPosts up s) = Ok [] ∧
  same_caches s (snd (apiService.getPopularPosts up s)).
Proof.
  intros Hmiss Hcase.
  unfold apiService.getPopularPosts, popularPostsCache_get. run_M.
  rewrite Hmiss. run_M. destruct Hcase as [Hnil|Hmissing].
  - rewrite Hnil. cbn [for_of]. run_M. by repeat split.
  - rewrite (for_of_comments_missing up _ Hmissing). run_M. by repeat split.
Qed.

(** One post whose comments response lacks the [comments] field. *)
Lemma X11_getPopularPosts_empty_uncached_witness :
  fst (apiService.getPopularPosts noCommentsUpstream (emptyStore 0)) = Ok [] ∧
  popularPostsCache
    (snd (apiService.getPopularPosts noCommentsUpstream (emptyStore 0))) =
    None.
Proof.
  destruct (X11_getPopularPosts_empty_uncached noCommentsUpstream
              (emptyStore 0)) as (Hres & _ & _ & Hcache & _).
  - reflexivity.
  - right. exists (mkTagged (samplePost 1 "u1") (Some "Ann")).
    split; [|reflexivity]. vm_compute. apply elem_of_cons. left. reflexivity.
  - split; [exact Hres|exact Hcache].
Defined.

Lemma prop_get_NoDup (entries : list (string * string)) id name :
  NoDup (map fst entries) → (id, name) ∈ entries →
  prop_get entries id = Some name.
Proof.
  induction entries as [|[k v] entries IH]; intros Hnd Hin.
  { by apply elem_of_nil in Hin. }
  apply NoDup_cons in Hnd as [Hk Hnd]. cbn [prop_get].
  apply elem_of_cons in Hin as [[= -> ->]|Hin].
  - by rewrite String.eqb_refl.
  - destruct (String.eqb_spec k id) as [->|_]; [|by apply IH].
    exfalso. apply Hk. apply (list_elem_of_fmap_2 fst _ (id, name)) in Hin.
    exact Hin.
Qed.

(** X12. When the keys of the listing are distinct (as the keys of an object
    are), [fetchAllPosts] is the concatenation, in listing order, of the posts
    fetched for each user, each tagged with the name of that user; a user
    whose request failed contributes nothing. *)
Theorem X12_fetchAllPosts_tags_owner (up : Upstream)
    (entries : list (string * string)) :
  users_of up = UsersObject entries → NoDup (map fst entries) →
  apiService.fetchAllPosts up = concat (map (taggedFor up) entries).
Proof.
  intros Hup Hnd. rewrite (fetchAllPosts_listing up entries Hup).
  rewrite map_map. f_equal. apply map_ext_in. intros [id name] Hin.
  unfold apiService.tagPosts, taggedFor. cbn [fst snd].
  by rewrite (prop_get_NoDup entries id name Hnd) by by apply list_elem_of_In.
Qed.

(** Four users; the posts of [u3] cannot be fetched. *)
Lemma X12_fetchAllPosts_tags_owner_witness :
  apiService.fetchAllPosts partialUpstream =
    [mkTagged (samplePost 1 "u1") (Some "Ann");
     mkTagged (samplePost 2 "u1") (Some "Ann");
     mkTagged (samplePost 3 "u2") (Some "Bob");
     mkTagged (samplePost 4 "u4") (Some "Dee")].
Proof.
  rewrite (X12_fetchAllPosts_tags_owner partialUpstream
             [("u1", "Ann"); ("u2", "Bob"); ("u3", "Cid"); ("u4", "Dee")]).
  - reflexivity.
  - reflexivity.
  - cbn. repeat constructor; rewrite ?elem_of_cons, elem_of_nil;
      intros H; repeat destruct H as [H|H]; discriminate || done.
Defined.

Lemma get_users_pinned cfg up s users :
  users_pinned s users →
  fst (app.get_users cfg up s) = mkResponse 200 (JsonUsers users) ∧
  users_pinned (snd (app.get_users cfg up s)) users.
Proof.
  unfold users_pinned, app.get_users, app.guarded, cacheService.getTopUsers,
    cacheService.setTopUsers, app.json, apiService.getTopUsers, userCache_get.
  run_M.
  destruct (ttl_get (clock s) (usersCache s)) as [cached|] eqn:Hget; run_M.
  { intros ->. cbn. rewrite Hget. by split. }
  cbn [userCache logged]. intros Hpin. rewrite Hpin. run_M. split; [done|].
  cbn. unfold ttl_set, ttl_get. by destruct (_ || _).
Qed.

Lemma get_posts_latest_pinned cfg up s posts :
  latest_pinned s posts →
  fst (app.get_posts cfg up (Some (QString "latest")) s) =
    mkResponse 200 (JsonLatest posts) ∧
  latest_pinned (snd (app.get_posts cfg up (Some (QString "latest")) s)) posts.
Proof.
  unfold latest_pinned, app.get_posts, app.guarded,
    cacheService.getLatestPosts, cacheService.setLatestPosts, app.json,
    apiService.getLatestPosts, latestPostsCache_get.
  change (truthy (QString "latest")) with true. cbv beta iota zeta.
  change (strict_eq (QString "latest") "latest") with true. run_M.
  destruct (ttl_get (clock s) (postsCache_latest s)) as [cached|] eqn:Hget;
    run_M.
  { intros ->. cbn. rewrite Hget. by split. }
  cbn [latestPostsCache logged]. intros Hpin. rewrite Hpin. run_M. split; [done|].
  cbn. unfold ttl_set, ttl_get. by destruct (_ || _).
Qed.

Lemma get_posts_popular_pinned cfg up s posts :
  popular_pinned s posts →
  fst (app.get_posts cfg up (Some (QString "popular")) s) =
    mkResponse 200 (JsonPopular posts) ∧
  popular_pinned (snd (app.get_posts cfg up (Some (QString "popular")) s))
    posts.
Proof.
  unfold popular_pinned, app.get_posts, app.guarded,
    cacheService.getPopularPosts, cacheService.setPopularPosts, app.json,
    apiService.getPopularPosts, popularPostsCache_get.
  change (truthy (QString "popular")) with true. cbv beta iota zeta.
  change (strict_eq (QString "popular") "latest") with false.
  change (strict_eq (QString "popular") "popular") with true. run_M.
  destruct (ttl_get (clock s) (postsCache_popular s)) as [cached|] eqn:Hget;
    run_M.
  { intros ->. cbn. rewrite Hget. by split. }
  cbn [popularPostsCache logged]. intros Hpin. rewrite Hpin. run_M. split; [done|].
  cbn. unfold ttl_set, ttl_get. by destruct (_ || _).
Qed.

(** X13. Once a view is cached, the endpoints answer from the caches alone:
    when the [cacheManager.js] entry is live, or it is not and the
    [apiManager.js] entry is set, [GET /users], [GET /posts?type=latest] and
    [GET /posts?type=popular] answer 200 with the cached list whatever the
    upstream would answer, and the next request finds the same list. *)
Theorem X13_cached_view_served (cfg : Config) (up : Upstream) (s : Store) :
  (∀ users, users_pinned s users →
     fst (app.get_users cfg up s) = mkResponse 200 (JsonUsers users) ∧
     users_pinned (snd (app.get_users cfg up s)) users) ∧
  (∀ posts, latest_pinned s posts →
     fst (app.get_posts cfg up (Some (QString "latest")) s) =
       mkResponse 200 (JsonLatest posts) ∧
     latest_pinned
       (snd (app.get_posts cfg up (Some (QString "latest")) s)) posts) ∧
  (∀ posts, popular_pinned s posts →
     fst (app.get_posts cfg up (Some (QString "popular")) s) =
       mkResponse 200 (JsonPopular posts) ∧
     popular_pinned
       (snd (app.get_posts cfg up (Some (QString "popular")) s)) posts).
Proof.
  split_and!.
  - intros users. apply get_users_pinned.
  - intros posts. apply get_posts_latest_pinned.
  - intros posts. apply get_posts_popular_pinned.
Qed.

(** The caches of an earlier cycle, with the upstream down. *)
Lemma X13_cached_view_served_witness :
  fst (app.get_users sampleConfig downUpstream warmStore) =
    mkResponse 200 (JsonUsers [mkUser "u1" "Ann" 2]).
Proof.
  destruct (X13_cached_view_served sampleConfig downUpstream warmStore)
    as (Husers & _).
  destruct (Husers [mkUser "u1" "Ann" 2]) as [Hres _].
  - reflexivity.
  - exact Hres.
Defined.

Lemma updatePostsCache_keeps up s :
  postsCache_latest (snd (apiService.updatePostsCache up s)) =
    postsCache_latest s ∧
  postsCache_popular (snd (apiService.updatePostsCache up s)) =
    postsCache_popular s ∧
  clock (snd (apiService.updatePostsCache up s)) = clock s.
Proof.
  unfold apiService.updatePostsCache, latestPostsCache_set,
    popularPostsCache_set.
  run_M; repeat (inner_case; run_M); by repeat split.
Qed.

(** X14. The scheduled refreshes write the caches of [apiManager.js] only,
    and the handlers read those of [cacheManager.js] first: while the
    [cacheManager.js] entry is live, the endpoint goes on answering with it
    after a refresh; once that entry has expired (or was never set), the
    endpoint answers with what the refresh stored. *)
Theorem X14_refresh_seen_after_expiry (cfg : Config) (up up' : Upstream)
    (s : Store) :
  (∀ users, ttl_get (clock s) (usersCache s) = Some users →
     fst (app.get_users cfg up' (snd (apiService.updateUsersCache up s))) =
       mkResponse 200 (JsonUsers users)) ∧
  (ttl_get (clock s) (usersCache s) = None →
   ∀ users, userCache (snd (apiService.updateUsersCache up s)) = Some users →
     fst (app.get_users cfg up' (snd (apiService.updateUsersCache up s))) =
       mkResponse 200 (JsonUsers users)) ∧
  (∀ posts, ttl_get (clock s) (postsCache_latest s) = Some posts →
     fst (app.get_posts cfg up' (Some (QString "latest"))
            (snd (apiService.updatePostsCache up s))) =
       mkResponse 200 (JsonLatest posts)) ∧
  (ttl_get (clock s) (postsCache_latest s) = None →
   ∀ posts,
     latestPostsCache (snd (apiService.updatePostsCache up s)) = Some posts →
     fst (app.get_posts cfg up' (Some (QString "latest"))
            (snd (apiService.updatePostsCache up s))) =
       mkResponse 200 (JsonLatest posts)) ∧
  (∀ posts, ttl_get (clock s) (postsCache_popular s) = Some posts →
     fst (app.get_posts cfg up' (Some (QString "popular"))
            (snd (apiService.updatePostsCache up s))) =
       mkResponse 200 (JsonPopular posts)) ∧
  (ttl_get (clock s) (postsCache_popular s) = None →
   ∀ posts,
     popularPostsCache (snd (apiService.updatePostsCache up s)) = Some posts →
     fst (app.get_posts cfg up' (Some (QString "popular"))
            (snd (apiService.updatePostsCache up s))) =
       mkResponse 200 (JsonPopular posts)).
Proof.
  destruct (updateUsersCache_run up s) as (written & Hrun & _).
  destruct (updatePostsCache_keeps up s) as (Hlatest & Hpopular & Hclock).
  split_and!.
  - intros users Hlive. apply get_users_pinned. unfold users_pinned.
    rewrite Hrun. cbn. by rewrite Hlive.
  - intros Hdead users Hwritten. apply get_users_pinned. unfold users_pinned.
    rewrite Hrun in Hwritten |- *. cbn in Hwritten |- *. by rewrite Hdead.
  - intros posts Hlive. apply get_posts_latest_pinned. unfold latest_pinned.
    by rewrite Hlatest, Hclock, Hlive.
  - intros Hdead posts Hwritten. apply get_posts_latest_pinned.
    unfold latest_pinned. by rewrite Hlatest, Hclock, Hdead.
  - intros posts Hlive. apply get_posts_popular_pinned. unfold popular_pinned.
    by rewrite Hpopular, Hclock, Hlive.
  - intros Hdead posts Hwritten. apply get_posts_popular_pinned.
    unfold popular_pinned. by rewrite Hpopular, Hclock, Hdead.
Qed.

(** After one request against four users, a refresh against the upstream with
    no user is not seen by the next request. *)
Lemma X14_refresh_seen_after_expiry_witness :
  fst (app.get_users sampleConfig emptyUpstream
         (snd (apiService.updateUsersCache emptyUpstream
                 (run sampleConfig (GetUsers partialUpstream)
                    (emptyStore 0))))) =
    fst (app.get_users sampleConfig partialUpstream (emptyStore 0)).
Proof.
  destruct (X14_refresh_seen_after_expiry sampleConfig emptyUpstream
              emptyUpstream
              (run sampleConfig (GetUsers partialUpstream) (emptyStore 0)))
    as (Hlive & _).
  rewrite (Hlive [mkUser "u1" "Ann" 2; mkUser "u2" "Bob" 1;
                  mkUser "u4" "Dee" 1; mkUser "u3" "Cid" 0]).
  - vm_compute. reflexivity.
  - vm_compute. reflexivity.
Defined.

Lemma ttl_get_set {V} now ttl (v : V) :
  0 ≤ ttl → ttl_get now (ttl_set now ttl v) = Some v.
Proof.
  intros Httl. unfold ttl_get, ttl_set.
  destruct (Z.eqb_spec ttl 0) as [->|Hnz]; [done|].
  replace (now <=? now + ttl * 1000) with true by (symmetry; apply Z.leb_le; lia).
  by rewrite orb_true_r.
Qed.

Lemma get_users_pins cfg up s :
  status (fst (app.get_users cfg up s)) = 200 →
  ∃ users, fst (app.get_users cfg up s) = mkResponse 200 (JsonUsers users) ∧
           users_pinned (snd (app.get_users cfg up s)) users.
Proof.
  unfold users_pinned, app.get_users, app.guarded, cacheService.getTopUsers,
    cacheService.setTopUsers, app.json, apiService.getTopUsers, userCache_get,
    userCache_set, apiService.fetchUsers.
  run_M.
  destruct (ttl_get (clock s) (usersCache s)) as [cached|] eqn:Hget; run_M.
  { intros _. exists cached. cbn. by rewrite Hget. }
  cbn [userCache logged].
  destruct (userCache s) as [cached|] eqn:Hcache; run_M.
  { intros _. exists cached. split; [done|]. cbn. unfold ttl_set, ttl_get.
    by destruct (_ || _). }
  destruct (users_of up) as [| |entries]; run_M; [done| |].
  { cbn [apiService.Object_entries]. by run_M. }
  cbn [apiService.Object_entries].
  destruct (apiService.topUsersOf _) as [topUsers|e]; run_M; [|done].
  intros _. exists topUsers. split; [done|]. cbn. unfold ttl_set, ttl_get.
  by destruct (_ || _).
Qed.

Lemma get_posts_latest_pins cfg up s :
  ∃ posts,
    fst (app.get_posts cfg up (Some (QString "latest")) s) =
      mkResponse 200 (JsonLatest posts) ∧
    latest_pinned (snd (app.get_posts cfg up (Some (QString "latest")) s))
      posts.
Proof.
  destruct (latestOf_spec (apiService.fetchAllPosts up))
    as (latestPosts & rest & Hlatest & _).
  unfold latest_pinned, app.get_posts, app.guarded,
    cacheService.getLatestPosts, cacheService.setLatestPosts, app.json,
    apiService.getLatestPosts, latestPostsCache_get, latestPostsCache_set.
  change (truthy (QString "latest")) with true. cbv beta iota zeta.
  change (strict_eq (QString "latest") "latest") with true. run_M.
  destruct (ttl_get (clock s) (postsCache_latest s)) as [cached|] eqn:Hget;
    run_M.
  { exists cached. cbn. by rewrite Hget. }
  cbn [latestPostsCache logged].
  destruct (latestPostsCache s) as [cached|] eqn:Hcache; run_M.
  { exists cached. split; [done|]. cbn. unfold ttl_set, ttl_get.
    by destruct (_ || _). }
  rewrite Hlatest. run_M. exists latestPosts. split; [done|].
  cbn. unfold ttl_set, ttl_get. by destruct (_ || _).
Qed.

Lemma get_posts_popular_pins cfg up s :
  0 ≤ postsCacheTTL cfg →
  ∃ posts,
    fst (app.get_posts cfg up (Some (QString "popular")) s) =
      mkResponse 200 (JsonPopular posts) ∧
    popular_pinned (snd (app.get_posts cfg up (Some (QString "popular")) s))
      posts.
Proof.
  intros Httl.
  unfold popular_pinned, app.get_posts, app.guarded,
    cacheService.getPopularPosts, cacheService.setPopularPosts, app.json.
  change (truthy (QString "popular")) with true. cbv beta iota zeta.
  change (strict_eq (QString "popular") "latest") with false.
  change (strict_eq (QString "popular") "popular") with true. run_M.
  destruct (ttl_get (clock s) (postsCache_popular s)) as [cached|] eqn:Hget;
    run_M.
  { exists cached. cbn. by rewrite Hget. }
  destruct (getPopularPosts_total up
    (logged (CacheGet "postsCache" "popular_posts") s)) as [posts Hposts].
  destruct (apiService.getPopularPosts up _) as [[r|e] s'] eqn:Hrun; [|done].
  cbn in Hposts. injection Hposts as ->. run_M.
  exists posts. split; [done|]. cbn [clock postsCache_popular logged].
  by rewrite ttl_get_set.
Qed.

(** X15. A request repeated at once gets the same answer, whatever the
    upstream has become in between: for [GET /users] after a 200, for the
    latest posts always, and for the popular posts when the TTL of the posts
    cache is not negative. *)
Theorem X15_repeat_same_answer (cfg : Config) (up up' : Upstream) (s : Store) :
  (status (fst (app.get_users cfg up s)) = 200 →
   fst (app.get_users cfg up' (snd (app.get_users cfg up s))) =
     fst (app.get_users cfg up s)) ∧
  fst (app.get_posts cfg up' (Some (QString "latest"))
         (snd (app.get_posts cfg up (Some (QString "latest")) s))) =
    fst (app.get_posts cfg up (Some (QString "latest")) s) ∧
  (0 ≤ postsCacheTTL cfg →
   fst (app.get_posts cfg up' (Some (QString "popular"))
          (snd (app.get_posts cfg up (Some (QString "popular")) s))) =
     fst (app.get_posts cfg up (Some (QString "popular")) s)).
Proof.
  split_and!.
  - intros Hok. destruct (get_users_pins cfg up s Hok) as (users & Hres & Hpin).
    rewrite Hres. by apply get_users_pinned.
  - destruct (get_posts_latest_pins cfg up s) as (posts & Hres & Hpin).
    rewrite Hres. by apply get_posts_latest_pinned.
  - intros Httl.
    destruct (get_posts_popular_pins cfg up s Httl) as (posts & Hres & Hpin).
    rewrite Hres. by apply get_posts_popular_pinned.
Qed.

(** Four users are served; the upstream then goes down. *)
Lemma X15_repeat_same_answer_witness :
  fst (app.get_users sampleConfig downUpstream
         (snd (app.get_users sampleConfig partialUpstream (emptyStore 0)))) =
    fst (app.get_users sampleConfig partialUpstream (emptyStore 0)).
Proof.
  destruct (X15_repeat_same_answer sampleConfig partialUpstream downUpstream
              (emptyStore 0)) as (Husers & _).
  apply Husers. vm_compute. reflexivity.
Defined.

(** * The views of the posts in every reachable state *)

Lemma ranked_latest_nil : ranked_latest [].
Proof. split; [cbn; lia|constructor]. Qed.

Lemma tied_popular_nil : tied_popular [].
Proof. split; [by intros x y ?%elem_of_nil|constructor]. Qed.

Lemma latestOf_ranked allPosts latestPosts :
  apiService.latestOf allPosts = Ok latestPosts → ranked_latest latestPosts.
Proof.
  intros Heq.
  destruct (latestOf_spec allPosts) as (l & rest & Hl & Hsorted & Hsplit).
  rewrite Hl in Heq. injection Heq as <-.
  split; [|done]. destruct Hsplit as (_ & _ & ->). lia.
Qed.

Lemma mostCommented_tied heap result :
  heap_ok commentCount heap → heap ≠ [] →
  apiService.mostCommented heap = Ok result → tied_popular result.
Proof.
  intros Hok Hne Heq.
  destruct (mostCommented_spec heap Hok Hne)
    as (r & maxComments & Hr & _ & _ & Hfilter & Hsorted).
  rewrite Hr in Heq. injection Heq as <-. split; [|done].
  intros x y Hx Hy. rewrite Hfilter in Hx, Hy.
  apply list_elem_of_filter in Hx as [Hx _], Hy as [Hy _]. congruence.
Qed.

Lemma for_of_insert_step_ok {B} (rank : B → outcome RankedPost)
    (posts : list B) : ∀ heap heap',
  heap_ok commentCount heap →
  for_of posts
    (λ commentHeap post,
       ranked ← rank post; MaxHeap.insert commentCount commentHeap ranked)
    heap = Ok heap' →
  heap_ok commentCount heap' ∧ (heap ≠ [] → heap' ≠ []) ∧
  (posts ≠ [] → heap' ≠ []).
Proof.
  induction posts as [|p posts IH]; intros heap heap' Hok Hrun.
  { injection Hrun as <-. by split_and!. }
  cbn [for_of] in Hrun. destruct (rank p) as [ranked|e]; [|done].
  cbn [mbind outcome_bind] in Hrun.
  destruct (insert_spec commentCount heap ranked) as (h1 & Hins & Hperm & Hok1).
  rewrite Hins in Hrun. cbn [mbind outcome_bind] in Hrun.
  assert (h1 ≠ []) as Hne1.
  { intros ->. by apply Permutation_nil_cons in Hperm. }
  destruct (IH h1 heap' (Hok1 Hok) Hrun) as (Hok' & Hne' & _).
  split_and!; auto.
Qed.

Lemma getLatestPosts_ranked up s :
  post_views_ranked s →
  post_views_ranked (snd (apiService.getLatestPosts up s)) ∧
  ∀ posts, fst (apiService.getLatestPosts up s) = Ok posts →
    ranked_latest posts.
Proof.
  intros Hs. pose proof Hs as (H1 & H2 & H3 & H4).
  assert (Hlog : ∀ op, post_views_ranked (logged op s)) by done.
  unfold apiService.getLatestPosts, latestPostsCache_get,
    latestPostsCache_set. run_M.
  destruct (latestPostsCache s) as [cached|] eqn:Hc; run_M.
  { split; [done|]. intros posts [= <-]. by apply H1. }
  destruct (apiService.latestOf (apiService.fetchAllPosts up))
    as [latestPosts|e] eqn:Hlatest; run_M.
  - apply latestOf_ranked in Hlatest. split.
    + split_and!; try done. cbn. by intros l [= <-].
    + by intros posts [= <-].
  - split; [done|]. intros posts [= <-]. apply ranked_latest_nil.
Qed.

Lemma getPopularPosts_tied up s :
  post_views_ranked s →
  post_views_ranked (snd (apiService.getPopularPosts up s)) ∧
  ∀ posts, fst (apiService.getPopularPosts up s) = Ok posts →
    tied_popular posts.
Proof.
  intros Hs. pose proof Hs as (H1 & H2 & H3 & H4).
  assert (Hlog : ∀ op, post_views_ranked (logged op s)) by done.
  unfold apiService.getPopularPosts, popularPostsCache_get,
    popularPostsCache_set. run_M.
  destruct (popularPostsCache s) as [cached|] eqn:Hc; run_M.
  { split; [done|]. intros posts [= <-]. by apply H3. }
  destruct (for_of (apiService.fetchAllPosts up) _ []) as [heap|e] eqn:Hheap;
    run_M.
  2: { split; [done|]. intros posts [= <-]. apply tied_popular_nil. }
  destruct (Z.eqb_spec (size heap) 0) as [Hz|Hnz]; run_M.
  { split; [done|]. intros posts [= <-]. apply tied_popular_nil. }
  assert (Hok : heap_ok commentCount heap).
  { eapply (for_of_insert_step_ok
      (λ post, match apiService.fetchPostComments up (tagged_id post) with
               | None => Throw TypeError
               | Some comments => Ok (mkRanked post (size comments))
               end) (apiService.fetchAllPosts up) [] heap (heap_ok_nil _)).
    rewrite <- Hheap. apply for_of_ext. intros b p _.
    by destruct (apiService.fetchPostComments up (tagged_id p)). }
  assert (Hne : heap ≠ []) by (by intros ->).
  destruct (apiService.mostCommented heap) as [result|e] eqn:Hres; run_M.
  - apply (mostCommented_tied heap result Hok Hne) in Hres. split.
    + split_and!; try done. cbn. by intros l [= <-].
    + by intros posts [= <-].
  - split; [done|]. intros posts [= <-]. apply tied_popular_nil.
Qed.

Lemma updatePostsCache_ranked up s :
  post_views_ranked s →
  post_views_ranked (snd (apiService.updatePostsCache up s)).
Proof.
  intros Hs. pose proof Hs as (H1 & H2 & H3 & H4).
  unfold apiService.updatePostsCache, latestPostsCache_set,
    popularPostsCache_set. run_M.
  destruct (Z.eqb_spec (size (apiService.fetchAllPosts up)) 0) as [Hz|Hnz];
    run_M.
  { split_and!; try done; cbn; intros l [= <-];
      [apply ranked_latest_nil|apply tied_popular_nil]. }
  destruct (apiService.latestOf (apiService.fetchAllPosts up))
    as [latestPosts|e] eqn:Hlatest; run_M; [|done].
  apply latestOf_ranked in Hlatest.
  assert (Hmid : ∀ op popular, (∀ l, popular = Some l → tied_popular l) →
    post_views_ranked (logged op
      (mkStore (userCache s) (Some latestPosts) popular (usersCache s)
         (postsCache_latest s) (postsCache_popular s) (clock s) (trace s)))).
  { intros op popular Hp. split_and!; try done. cbn. by intros l [= <-]. }
  destruct (for_of (apiService.fetchAllPosts up) _ []) as [heap|e] eqn:Hheap;
    run_M; [|by apply Hmid].
  rewrite Z.gtb_ltb.
  destruct (Z.ltb_spec 0 (size heap)) as [Hpos|Hzero]; run_M;
    [|by apply Hmid].
  assert (Hok : heap_ok commentCount heap).
  { eapply (for_of_insert_step_ok
      (λ post, Ok (rankPost up post)) (apiService.fetchAllPosts up) [] heap
      (heap_ok_nil _)).
    rewrite <- Hheap. by apply for_of_ext. }
  assert (Hne : heap ≠ []).
  { intros ->. unfold size in Hpos. cbn in Hpos. lia. }
  destruct (apiService.mostCommented heap) as [result|e] eqn:Hres; run_M;
    [|by apply Hmid].
  apply (mostCommented_tied heap result Hok Hne) in Hres.
  split_and!; try done; cbn; by intros l [= <-].
Qed.

Lemma get_users_posts cfg up s :
  same_post_views s (snd (app.get_users cfg up s)).
Proof.
  unfold app.get_users, app.guarded, cacheService.getTopUsers,
    cacheService.setTopUsers, app.json, apiService.getTopUsers,
    userCache_get, userCache_set.
  run_M; repeat (inner_case; run_M); by repeat split.
Qed.

Lemma updateUsersCache_posts up s :
  same_post_views s (snd (apiService.updateUsersCache up s)).
Proof.
  destruct (updateUsersCache_run up s) as (topUsers & -> & _).
  by repeat split.
Qed.

Lemma same_post_views_ranked s s' :
  same_post_views s s' → post_views_ranked s → post_views_ranked s'.
Proof.
  intros (E1 & E2 & E3 & E4) (H1 & H2 & H3 & H4).
  split_and!; intros *; rewrite ?E1, ?E2, ?E3, ?E4; eauto.
Qed.

Lemma get_posts_ranked cfg up q s :
  post_views_ranked s →
  post_views_ranked (snd (app.get_posts cfg up q s)) ∧
  match body (fst (app.get_posts cfg up q s)) with
  | JsonUsers _ => False
  | JsonLatest posts => ranked_latest posts
  | JsonPopular posts => tied_popular posts
  | JsonError _ => status (fst (app.get_posts cfg up q s)) = 400
  end.
Proof.
  intros Hs. pose proof Hs as (H1 & H2 & H3 & H4).
  assert (Hlog : ∀ op, post_views_ranked (logged op s)) by done.
  unfold app.get_posts, app.guarded, cacheService.getLatestPosts,
    cacheService.getPopularPosts, cacheService.setLatestPosts,
    cacheService.setPopularPosts, app.json.
  run_M.
  destruct (strict_eq _ "latest"); [|destruct (strict_eq _ "popular")]; run_M.
  - destruct (ttl_get _ _) as [cached|] eqn:Hget; run_M.
    { split; [done|]. apply ttl_get_Some in Hget as [t Ht]. by apply (H2 _ t). }
    destruct (getLatestPosts_ranked up _
                (Hlog (CacheGet "postsCache" "latest_posts")))
      as [(G1 & G2 & G3 & G4) Hres].
    destruct (getLatestPosts_total up
      (logged (CacheGet "postsCache" "latest_posts") s)) as [posts Hposts].
    destruct (apiService.getLatestPosts up _) as [[r|e] s']; [|done].
    run_M. cbn in Hres. specialize (Hres r eq_refl). split; [|done].
    split_and!; try done. cbn. unfold ttl_set. by intros l t [= <- _].
  - destruct (ttl_get _ _) as [cached|] eqn:Hget; run_M.
    { split; [done|]. apply ttl_get_Some in Hget as [t Ht]. by apply (H4 _ t). }
    destruct (getPopularPosts_tied up _
                (Hlog (CacheGet "postsCache" "popular_posts")))
      as [(G1 & G2 & G3 & G4) Hres].
    destruct (getPopularPosts_total up
      (logged (CacheGet "postsCache" "popular_posts") s)) as [posts Hposts].
    destruct (apiService.getPopularPosts up _) as [[r|e] s']; [|done].
    run_M. cbn in Hres. specialize (Hres r eq_refl). split; [|done].
    split_and!; try done. cbn. unfold ttl_set. by intros l t [= <- _].
  - done.
Qed.

Lemma run_post_views cfg e s :
  post_views_ranked s → post_views_ranked (run cfg e s).
Proof.
  intros Hs. destruct e as [now|up|up q|up|up]; cbn [run].
  - done.
  - apply (same_post_views_ranked s); [apply get_users_posts|done].
  - by apply get_posts_ranked.
  - by apply updatePostsCache_ranked.
  - apply (same_post_views_ranked s); [apply updateUsersCache_posts|done].
Qed.

Lemma reachable_post_views cfg s : reachable cfg s → post_views_ranked s.
Proof.
  induction 1 as [now|e s _ IH]; [by split_and!|]. by apply run_post_views.
Qed.

(** X16. In every state that the service can reach, [GET /posts] answers
    either 400, or 200 with at most five posts in descending order of
    identifier (the latest posts), or 200 with posts that all have the same
    comment count, in descending order of identifier (the popular posts). *)
Theorem X16_post_views_well_formed (cfg : Config) (s : Store) (up : Upstream)
    (query_type : option QueryValue) :
  reachable cfg s →
  match body (fst (app.get_posts cfg up query_type s)) with
  | JsonUsers _ => False
  | JsonLatest posts =>
      (length posts ≤ 5)%nat ∧ StronglySorted (descBy tagged_id) posts
  | JsonPopular posts =>
      (∀ x y, x ∈ posts → y ∈ posts → commentCount x = commentCount y) ∧
      StronglySorted (descBy ranked_id) posts
  | JsonError _ => status (fst (app.get_posts cfg up query_type s)) = 400
  end.
Proof.
  intros Hs%reachable_post_views.
  destruct (get_posts_ranked cfg up query_type s Hs) as [_ Hbody].
  exact Hbody.
Qed.

(** The popular posts, served after a scheduled refresh of the posts. *)
Lemma X16_post_views_well_formed_witness :
  ∃ posts,
    body (fst (app.get_posts sampleConfig tiedUpstream
                 (Some (QString "popular"))
                 (run sampleConfig (RefreshPosts tiedUpstream)
                    (emptyStore 0)))) = JsonPopular posts ∧
    StronglySorted (descBy ranked_id) posts.
Proof.
  pose proof (X16_post_views_well_formed sampleConfig
    (run sampleConfig (RefreshPosts tiedUpstream) (emptyStore 0))
    tiedUpstream (Some (QString "popular"))
    (reachable_step sampleConfig (RefreshPosts tiedUpstream) (emptyStore 0)
       (reachable_init sampleConfig 0))) as Hbody.
  destruct (body _) as [users|posts|posts|message] eqn:Heq;
    try (vm_compute in Heq; discriminate Heq).
  exists posts. split; [reflexivity|]. exact (proj2 Hbody).
Defined.

(** * Further properties of the selection *)

(** X17. [MinHeap] is [MaxHeap] with the negated post count as key: on every
    array, heap-ordered or not, [insert] and [extractMin] give what
    [MaxHeap.insert] and [MaxHeap.extractMax] give with the key
    [-postCount]. *)
Theorem X17_MinHeap_is_negated_MaxHeap (heap : list User) (user : User) :
  MinHeap.insert heap user = MaxHeap.insert negCount heap user ∧
  MinHeap.extractMin heap = MaxHeap.extractMax negCount heap ∧
  (∀ fuel index,
     MinHeap.heapifyDown fuel heap index =
       MaxHeap.heapifyDown negCount fuel heap index) ∧
  (∀ index,
     MinHeap.heapifyUp heap index = MaxHeap.heapifyUp negCount heap index).
Proof.
  split_and!.
  - apply MinHeap_insert_eq.
  - apply MinHeap_extractMin_eq.
  - intros fuel index. apply MinHeap_heapifyDown_eq.
  - intros index. apply MinHeap_heapifyUp_loop_eq.
Qed.

(** X18. One step of the selection loop of [getTopUsers] never throws and
    keeps the heap at five users at most: from a heap of at most five users it
    leaves min(5, n + 1) of the n + 1 users at hand, whether or not the array
    was heap-ordered. *)
Theorem X18_keepFive_bounded (heap : list User) (user : User) :
  (length heap ≤ 5)%nat →
  ∃ heap',
    apiService.keepFive heap user = Ok heap' ∧
    length heap' = Nat.min 5 (S (length heap)) ∧
    heap' ⊆+ user :: heap.
Proof.
  intros Hlen. unfold apiService.keepFive. rewrite MinHeap_insert_eq.
  destruct (insert_spec negCount heap user) as (h1 & -> & Hp1 & _).
  cbn [mbind outcome_bind].
  pose proof (Permutation_length Hp1) as Hl1. cbn in Hl1.
  rewrite Z.gtb_ltb. destruct (Z.ltb_spec 5 (size h1)) as [Hbig|Hsmall].
  - rewrite MinHeap_extractMin_eq. destruct h1 as [|m t]; [done|].
    destruct (extractMax_cons negCount m t) as (h2 & -> & Hp2 & _).
    cbn [mbind outcome_bind]. exists h2.
    pose proof (Permutation_length Hp2) as Hl2. cbn in Hl2.
    unfold size in Hbig. cbn in Hbig, Hl1.
    split_and!; [done|lia|].
    rewrite <- Hp1. apply submseteq_cons.
    apply Permutation_cons_inv in Hp2. by rewrite Hp2.
  - exists h1. unfold size in Hsmall. split_and!; [done|lia|by rewrite Hp1].
Qed.

(** A sixth user arrives at a heap of five. *)
Lemma X18_keepFive_bounded_witness :
  ∃ heap',
    apiService.keepFive
      [mkUser "u1" "Ann" 1; mkUser "u2" "Bob" 2; mkUser "u3" "Cid" 3;
       mkUser "u4" "Dee" 4; mkUser "u5" "Eve" 5] (mkUser "u6" "Fay" 6) =
      Ok heap' ∧
    length heap' = 5%nat.
Proof.
  destruct (X18_keepFive_bounded
              [mkUser "u1" "Ann" 1; mkUser "u2" "Bob" 2; mkUser "u3" "Cid" 3;
               mkUser "u4" "Dee" 4; mkUser "u5" "Eve" 5]
              (mkUser "u6" "Fay" 6)) as (heap' & Heq & Hlen & _).
  - cbn. lia.
  - exists heap'. split; [exact Heq|]. rewrite Hlen. reflexivity.
Defined.

(** * Startup checks *)

Lemma validateEnv_None env vars :
  validateEnv env vars = None ↔
  ∀ envVar, envVar ∈ vars → ∃ value, env envVar = Some value ∧ value ≠ "".
Proof.
  induction vars as [|v vars IH]; cbn [validateEnv].
  { split; [by intros _ ? ?%elem_of_nil|done]. }
  unfold env_missing at 1. destruct (env v) as [value|] eqn:Hv.
  - destruct (String.eqb_spec value "") as [->|Hne].
    + split; [done|]. intros H. destruct (H v) as (value & Hv' & Hne).
      { by left. }
      congruence.
    + rewrite IH. split.
      * intros H envVar [->|Hin]%elem_of_cons; [by exists value|by apply H].
      * intros H envVar Hin. apply H. by right.
  - split; [done|]. intros H. destruct (H v) as (value & Hv' & _).
    { by left. }
    congruence.
Qed.

Lemma validateEnv_Some env vars envVar :
  validateEnv env vars = Some envVar →
  ∃ before after, vars = before ++ envVar :: after ∧
    env_missing env envVar = true ∧
    ∀ earlier, earlier ∈ before → env_missing env earlier = false.
Proof.
  induction vars as [|v vars IH]; cbn [validateEnv]; [done|].
  destruct (env_missing env v) eqn:Hv.
  - intros [= ->]. exists [], vars. split_and!; [done..|].
    by intros ? ?%elem_of_nil.
  - intros (before & after & -> & Hmissing & Hbefore)%IH.
    exists (v :: before), after. split_and!; [done..|].
    by intros earlier [->|Hin]%elem_of_cons; [|apply Hbefore].
Qed.

(** X19. The startup check lets the module load exactly when each of the six
    required variables is set and not empty; otherwise the process exits with
    the message naming the first variable, in the order of [requiredEnvVars],
    that is unset or empty. *)
Theorem X19_validateEnv_first_missing (env : string → option string) :
  (validateEnv env requiredEnvVars = None ↔
   ∀ envVar, envVar ∈ requiredEnvVars →
     ∃ value, env envVar = Some value ∧ value ≠ "") ∧
  (∀ envVar, validateEnv env requiredEnvVars = Some envVar →
     ∃ before after, requiredEnvVars = before ++ envVar :: after ∧
       env_missing env envVar = true ∧
       ∀ earlier, earlier ∈ before → env_missing env earlier = false).
Proof.
  split.
  - apply validateEnv_None.
  - intros envVar. apply validateEnv_Some.
Qed.

(** X21. When some post was fetched, [updatePostsCache] stores in
    [popularPosts] exactly the posts whose comment count is the largest one,
    in descending order of identifier, never the empty list; a comments
    request that fails or whose response carries no [comments] field counts
    as zero comments. *)
Theorem X21_updatePostsCache_all_ties (up : Upstream) (s : Store) :
  apiService.fetchAllPosts up ≠ [] →
  ∃ popularPosts maxComments,
    popularPostsCache (snd (apiService.updatePostsCache up s)) =
      Some popularPosts ∧
    popularPosts ≠ [] ∧
    (∀ post, post ∈ apiService.fetchAllPosts up →
       commentCount (rankPost up post) ≤ maxComments) ∧
    popularPosts ≡ₚ filter (λ post, commentCount post = maxComments)
                      (rankPost up <$> apiService.fetchAllPosts up) ∧
    StronglySorted (descBy ranked_id) popularPosts.
Proof.
  intros Hne.
  destruct (for_of_insert commentCount
              (rankPost up <$> apiService.fetchAllPosts up) [])
    as (heap & Hheap & Hperm & Hok).
  rewrite <- (for_of_fmap (rankPost up)) in Hheap. cbn [app] in Hperm.
  specialize (Hok (heap_ok_nil _)).
  assert (Hheap_ne : heap ≠ []).
  { intros ->. apply Permutation_length in Hperm. rewrite length_fmap in Hperm.
    destruct (apiService.fetchAllPosts up); [done|]. cbn in Hperm. lia. }
  destruct (mostCommented_spec heap Hok Hheap_ne)
    as (result & maxComments & Hres & Hmax & (y & Hy & Hymax) & Hfilter & Hsorted).
  exists result, maxComments. split_and!; [| | | |done].
  - apply (updatePostsCache_popular up s heap Hheap).
    destruct (Z.eqb_spec (size heap) 0) as [Hz|_]; [|done].
    destruct heap; [done|]. unfold size in Hz. cbn in Hz. lia.
  - intros ->. apply Permutation_nil in Hfilter.
    assert (Hyf : y ∈ filter (λ post, commentCount post = maxComments) heap)
      by by apply list_elem_of_filter.
    rewrite Hfilter in Hyf. by apply elem_of_nil in Hyf.
  - intros post Hin. apply Hmax. rewrite Hperm. by apply list_elem_of_fmap_2.
  - by rewrite Hfilter, Hperm.
Qed.

(** One post whose comments response lacks the [comments] field: the refresh
    stores it with zero comments. *)
Lemma X21_updatePostsCache_all_ties_witness :
  ∃ popularPosts,
    popularPostsCache
      (snd (apiService.updatePostsCache noCommentsUpstream (emptyStore 0))) =
      Some popularPosts ∧
    popularPosts ≠ [].
Proof.
  destruct (X21_updatePostsCache_all_ties noCommentsUpstream (emptyStore 0))
    as (popularPosts & maxComments & Hcache & Hne & _).
  - vm_compute. discriminate.
  - exists popularPosts. split; [exact Hcache|exact Hne].
Defined.
